(** * Waitlist metadata: environment sniffer and geolocation enrichment

    A shallow embedding of [src/lib/metadata.ts] (the functions
    [collectTechnicalMetadata] and [getGeolocation]) and of the merge step
    of [handleSubmit] in [src/App.tsx], with the properties of the
    specification stated over it. *)

From Stdlib Require Import ZArith NArith Ascii String Bool Lia PrimFloat.
From Stdlib Require Import DecimalString DecimalZ DecimalPos.
From stdpp Require Import gmap strings list fin_maps.

#[local] Set Warnings "-clear-no-such-hyp".

Local Open Scope bool_scope.

(** ** JavaScript strings

    A JavaScript string is a sequence of UTF-16 code units.  String
    literals of the source are written [js "..."]. *)

Definition JsString : Type := list N.

Definition js (s : string) : JsString :=
  List.map N_of_ascii (list_ascii_of_string s).

(** [s.startsWith(p)], used to define the substring search. *)
Fixpoint startsWith (p s : JsString) : bool :=
  match p, s with
  | [], _ => true
  | _ :: _, [] => false
  | a :: p', b :: s' => N.eqb a b && startsWith p' s'
  end.

(** [s.includes(p)]: [p] occurs at some position of [s]. *)
Fixpoint includes (s p : JsString) : bool :=
  startsWith p s ||
  match s with
  | [] => false
  | _ :: s' => includes s' p
  end.

(** [s.replace(a, b)] for one-code-unit strings [a] and [b]: only the
    first occurrence is replaced. *)
Fixpoint replaceFirst (a b : N) (s : JsString) : JsString :=
  match s with
  | [] => []
  | c :: s' => if N.eqb c a then b :: s' else c :: replaceFirst a b s'
  end.

(** [x || d] on a possibly undefined string: [undefined] and the empty
    string are falsy. *)
Definition orElse (x : option JsString) (d : JsString) : JsString :=
  match x with
  | Some (c :: s) => c :: s
  | Some [] => d
  | None => d
  end.

(** ** Regular expressions

    Patterns are embedded as the continuation-passing matchers of the
    ECMAScript specification: a matcher takes the current match state and
    a continuation for the rest of the pattern, and backtracks when the
    continuation fails. *)

Module RegExp.

Record MatchState : Type := mkState {
  rest : JsString;                    (* input from the current end index *)
  captures : list (nat * JsString)    (* most recent capture first *)
}.

Definition Continuation : Type := MatchState -> option MatchState.
Definition Matcher : Type := MatchState -> Continuation -> option MatchState.

(** Canonicalize for the [i] flag (no [u] flag).  The full definition
    upper-cases with the Unicode tables but never maps a code unit above
    127 to one below 128; every letter of the patterns of this program is
    ASCII, so comparing ASCII upper-cased code units decides the same
    matches. *)
Definition upperAscii (c : N) : N :=
  if N.leb 97 c && N.leb c 122 then (c - 32)%N else c.

Definition canonicalize (ignoreCase : bool) (c : N) : N :=
  if ignoreCase then upperAscii c else c.

Definition charMatcher (ok : N -> bool) : Matcher := fun x k =>
  match rest x with
  | c :: t => if ok c then k (mkState t (captures x)) else None
  | [] => None
  end.

Definition lit (ignoreCase : bool) (p : N) : Matcher :=
  charMatcher (fun c => N.eqb (canonicalize ignoreCase c) (canonicalize ignoreCase p)).

Definition empty : Matcher := fun x k => k x.

Definition seq (m1 m2 : Matcher) : Matcher := fun x k =>
  m1 x (fun y => m2 y k).

Definition alt (m1 m2 : Matcher) : Matcher := fun x k =>
  match m1 x k with
  | Some r => Some r
  | None => m2 x k
  end.

Fixpoint str (ignoreCase : bool) (p : JsString) : Matcher :=
  match p with
  | [] => empty
  | c :: p' => seq (lit ignoreCase c) (str ignoreCase p')
  end.

(** Greedy [*] over a one-character atom: take the character and loop,
    and on failure of what follows give the character back. *)
Fixpoint starLoop (ok : N -> bool) (s : JsString) (caps : list (nat * JsString))
    (k : Continuation) : option MatchState :=
  match s with
  | c :: t =>
      if ok c then
        match starLoop ok t caps k with
        | Some r => Some r
        | None => k (mkState s caps)
        end
      else k (mkState s caps)
  | [] => k (mkState [] caps)
  end.

Definition star (ok : N -> bool) : Matcher := fun x k =>
  starLoop ok (rest x) (captures x) k.

Definition plus (ok : N -> bool) : Matcher := seq (charMatcher ok) (star ok).

(** Capturing parentheses number [n]. *)
Definition group (n : nat) (m : Matcher) : Matcher := fun x k =>
  m x (fun y =>
    k (mkState (rest y)
         ((n, take (length (rest x) - length (rest y)) (rest x)) :: captures y))).

(** [(?!m)]. *)
Definition negLookahead (m : Matcher) : Matcher := fun x k =>
  match m x Some with
  | Some _ => None
  | None => k x
  end.

(** Character classes. *)
Definition isDigit (c : N) : bool := N.leb 48 c && N.leb c 57.          (* \d *)
Definition isLineTerminator (c : N) : bool :=
  N.eqb c 10 || N.eqb c 13 || N.eqb c 8232 || N.eqb c 8233.
Definition dot (c : N) : bool := negb (isLineTerminator c).              (* . *)
Definition dotOrUnderscore (c : N) : bool := N.eqb c 46 || N.eqb c 95.  (* [._] *)

(** A match attempt at the start of [s]. *)
Definition matchAt (m : Matcher) (s : JsString) : option MatchState :=
  m (mkState s []) Some.

(** [re.exec(s)] for a pattern without the [g] flag: the first position
    from the left at which the pattern matches. *)
Fixpoint exec (m : Matcher) (s : JsString) : option MatchState :=
  match matchAt m s with
  | Some r => Some r
  | None =>
      match s with
      | [] => None
      | _ :: t => exec m t
      end
  end.

(** [re.test(s)]. *)
Definition test (m : Matcher) (s : JsString) : bool :=
  match exec m s with
  | Some _ => true
  | None => false
  end.

Fixpoint lookupCapture (n : nat) (caps : list (nat * JsString)) : option JsString :=
  match caps with
  | [] => None
  | (i, v) :: caps' => if Nat.eqb i n then Some v else lookupCapture n caps'
  end.

(** [s.match(re)?.[n]]: [None] stands for [undefined]. *)
Definition matchGroup (m : Matcher) (n : nat) (s : JsString) : option JsString :=
  match exec m s with
  | Some r => lookupCapture n (captures r)
  | None => None
  end.

End RegExp.

Import RegExp.

(** ** The classifiers of [collectTechnicalMetadata] *)

Record Browser : Type := mkBrowser { name : JsString; version : JsString }.

(** [/Firefox\/(\d+)/], [/Edg\/(\d+)/], [/Chrome\/(\d+)/], [/Version\/(\d+)/] *)
Definition versionRe (prefix : string) : Matcher :=
  seq (str false (js prefix)) (group 1 (plus isDigit)).

Definition getBrowser (ua : JsString) : Browser :=
  if includes ua (js "Firefox") then
    mkBrowser (js "Firefox") (orElse (matchGroup (versionRe "Firefox/") 1 ua) (js "unknown"))
  else if includes ua (js "Edg") then
    mkBrowser (js "Edge") (orElse (matchGroup (versionRe "Edg/") 1 ua) (js "unknown"))
  else if includes ua (js "Chrome") then
    mkBrowser (js "Chrome") (orElse (matchGroup (versionRe "Chrome/") 1 ua) (js "unknown"))
  else if includes ua (js "Safari") then
    mkBrowser (js "Safari") (orElse (matchGroup (versionRe "Version/") 1 ua) (js "unknown"))
  else mkBrowser (js "Unknown") (js "unknown").

(** [/Mac OS X (\d+[._]\d+)/] *)
Definition macVersionRe : Matcher :=
  seq (str false (js "Mac OS X "))
      (group 1 (seq (plus isDigit) (seq (charMatcher dotOrUnderscore) (plus isDigit)))).

Definition getOS (ua : JsString) : JsString :=
  if includes ua (js "Windows NT 10") then js "Windows 10/11"
  else if includes ua (js "Windows") then js "Windows"
  else if includes ua (js "Mac OS X") then
    js "macOS " ++
    orElse (option_map (replaceFirst 95 46) (matchGroup macVersionRe 1 ua)) []
  else if includes ua (js "Linux") then js "Linux"
  else if includes ua (js "Android") then js "Android"
  else if includes ua (js "iOS") || includes ua (js "iPhone") || includes ua (js "iPad")
    then js "iOS"
  else js "Unknown".

Inductive DeviceType : Type := desktop | mobile | tablet.

(** [/(tablet|ipad|playbook|silk)|(android(?!.*mobi))/i] *)
Definition tabletRe : Matcher :=
  alt (group 1 (alt (str true (js "tablet"))
               (alt (str true (js "ipad"))
               (alt (str true (js "playbook"))
                    (str true (js "silk"))))))
      (group 2 (seq (str true (js "android"))
                    (negLookahead (seq (star dot) (str true (js "mobi")))))).

(** [/Mobile|Android|iP(hone|od)|IEMobile|BlackBerry|Kindle|Silk-Accelerated|(hpw|web)OS|Opera M(obi|ini)/] *)
Definition mobileRe : Matcher :=
  alt (str false (js "Mobile"))
 (alt (str false (js "Android"))
 (alt (seq (str false (js "iP")) (group 1 (alt (str false (js "hone")) (str false (js "od")))))
 (alt (str false (js "IEMobile"))
 (alt (str false (js "BlackBerry"))
 (alt (str false (js "Kindle"))
 (alt (str false (js "Silk-Accelerated"))
 (alt (seq (group 2 (alt (str false (js "hpw")) (str false (js "web")))) (str false (js "OS")))
      (seq (str false (js "Opera M"))
           (group 3 (alt (str false (js "obi")) (str false (js "ini")))))))))))).

Definition getDeviceType (ua : JsString) : DeviceType :=
  if test tabletRe ua then tablet
  else if test mobileRe ua then mobile
  else desktop.

(** [hour] is the result of [now.getHours()]. *)
Definition getTimeOfDay (hour : Z) : JsString :=
  if Z.leb 5 hour && Z.ltb hour 12 then js "Morning"
  else if Z.leb 12 hour && Z.ltb hour 17 then js "Afternoon"
  else if Z.leb 17 hour && Z.ltb hour 21 then js "Evening"
  else js "Night".

(** ** JavaScript values and the host environment *)

Unset Elimination Schemes.
Inductive JsValue : Type :=
  | VUndefined
  | VNull
  | VBool (b : bool)
  | VNumber (x : PrimFloat.float)
  | VString (s : JsString)
  | VArray (elems : list JsValue)
  | VObject (props : gmap string JsValue).
Set Elimination Schemes.

(** Truthiness, as [||] and [?.] use it. *)
Definition truthy (v : JsValue) : bool :=
  match v with
  | VUndefined | VNull => false
  | VBool b => b
  | VNumber x => negb (PrimFloat.is_zero x || PrimFloat.is_nan x)
  | VString s => match s with [] => false | _ :: _ => true end
  | VArray _ | VObject _ => true
  end.

Definition jsOr (a b : JsValue) : JsValue := if truthy a then a else b.

(** The outcome of evaluating an expression or awaiting a promise. *)
Inductive Completion (A : Type) : Type :=
  | Normal (a : A)
  | Throw (error : JsValue).
Arguments Normal {A} a.
Arguments Throw {A} error.

(** The [TypeError] raised by a property read on [null] or [undefined]. *)
Definition TypeError : JsValue :=
  VObject {[ "name" := VString (js "TypeError") ]}.

(** [v.key] for a property name that no built-in prototype defines (the
    names read by this program: [country_name], [city], [country_code],
    [effectiveType], [type]). *)
Definition getProp (v : JsValue) (key : string) : Completion JsValue :=
  match v with
  | VUndefined | VNull => Throw TypeError
  | VObject props => Normal (default VUndefined (props !! key))
  | _ => Normal VUndefined
  end.

(** [v?.key] *)
Definition getPropOpt (v : JsValue) (key : string) : JsValue :=
  match getProp v key with
  | Normal x => x
  | Throw _ => VUndefined
  end.

(** [a === b] against a string literal. *)
Definition strictEqualsString (v : JsValue) (lit : JsString) : bool :=
  match v with
  | VString s => bool_decide (s = lit)
  | _ => false
  end.

(** Decimal rendering of an integral number in a template literal. *)
Definition numberToString (n : Z) : JsString :=
  js (NilZero.string_of_int (Z.to_int n)).

(** The ambient state read by [collectTechnicalMetadata]. *)
Record Env : Type := mkEnv {
  navigator_userAgent : JsString;
  navigator_language : JsString;
  navigator_cookieEnabled : bool;
  navigator_doNotTrack : JsValue;
  navigator_connection : JsValue;
  navigator_mozConnection : JsValue;
  navigator_webkitConnection : JsValue;
  screen_width : Z;
  screen_height : Z;
  window_innerWidth : Z;
  window_innerHeight : Z;
  location_href : JsString;
  document_referrer : JsString;
  resolved_timeZone : JsString;     (* Intl.DateTimeFormat().resolvedOptions().timeZone *)
  now_getHours : Z;
  now_getDay : nat;
  now_toISOString : JsString
}.

(** ** The technical metadata record *)

Module Meta.

Record BrowserInfo : Type := mkBrowserInfo {
  name : JsString;
  version : JsString;
  userAgent : JsString
}.

Record DeviceInfo : Type := mkDeviceInfo {
  type : DeviceType;
  os : JsString;
  screenResolution : JsString;
  viewportSize : JsString
}.

Record SessionInfo : Type := mkSessionInfo {
  referrer : JsString;
  landingPage : JsString;
  timestamp : JsString;
  dayOfWeek : JsValue;
  timeOfDay : JsString
}.

Record TechnicalInfo : Type := mkTechnicalInfo {
  jsEnabled : bool;
  cookiesEnabled : bool;
  doNotTrack : bool;
  connectionType : JsValue
}.

(** [location] has optional keys and is merged by object spread, so it
    is kept as an object: a finite map from property names to values. *)
Record TechnicalMetadata : Type := mkTechnicalMetadata {
  browser : BrowserInfo;
  device : DeviceInfo;
  location : gmap string JsValue;
  session : SessionInfo;
  technical : TechnicalInfo
}.

End Meta.

Definition days : list JsString :=
  [js "Sunday"; js "Monday"; js "Tuesday"; js "Wednesday"; js "Thursday";
   js "Friday"; js "Saturday"].

Definition getConnectionType (env : Env) : JsValue :=
  let connection :=
    jsOr (jsOr (navigator_connection env) (navigator_mozConnection env))
         (navigator_webkitConnection env) in
  jsOr (jsOr (getPropOpt connection "effectiveType") (getPropOpt connection "type"))
       VUndefined.

Definition collectTechnicalMetadata (env : Env) : Meta.TechnicalMetadata :=
  let ua := navigator_userAgent env in
  let hour := now_getHours env in
  Meta.mkTechnicalMetadata
    (Meta.mkBrowserInfo (name (getBrowser ua)) (version (getBrowser ua)) ua)
    (Meta.mkDeviceInfo
       (getDeviceType ua)
       (getOS ua)
       (numberToString (screen_width env) ++ js "x" ++ numberToString (screen_height env))
       (numberToString (window_innerWidth env) ++ js "x"
          ++ numberToString (window_innerHeight env)))
    {[ "timezone" := VString (resolved_timeZone env);
       "language" := VString (navigator_language env) ]}
    (Meta.mkSessionInfo
       (orElse (Some (document_referrer env)) (js "Direct"))
       (location_href env)
       (now_toISOString env)
       (match days !! now_getDay env with
        | Some d => VString d
        | None => VUndefined
        end)
       (getTimeOfDay hour))
    (Meta.mkTechnicalInfo
       true
       (navigator_cookieEnabled env)
       (strictEqualsString (navigator_doNotTrack env) (js "1"))
       (getConnectionType env)).

(** ** Effects: exceptions and the diagnostic console

    An asynchronous function is run to completion: its computation takes
    the console written so far and yields a completion and the console
    after it. *)

Record LogEntry : Type := mkLogEntry {
  level : string;
  args : list JsValue
}.

Definition Eff (A : Type) : Type :=
  list LogEntry -> Completion A * list LogEntry.

Definition ret {A} (a : A) : Eff A := fun log => (Normal a, log).

Definition bind {A B} (c : Eff A) (f : A -> Eff B) : Eff B := fun log =>
  match c log with
  | (Normal a, log') => f a log'
  | (Throw e, log') => (Throw e, log')
  end.

Notation "x <- c1 ;; c2" := (bind c1 (fun x => c2))
  (at level 100, c1 at next level, right associativity).
Notation "c1 ;; c2" := (bind c1 (fun _ => c2))
  (at level 100, right associativity).

(** [await p]: the promise [p] has settled with the given completion. *)
Definition await {A} (p : Completion A) : Eff A := fun log => (p, log).

(** The evaluation of an expression that may throw. *)
Definition eval {A} (c : Completion A) : Eff A := fun log => (c, log).

(** [try { body } catch (error) { handler }] *)
Definition tryCatch {A} (body : Eff A) (handler : JsValue -> Eff A) : Eff A :=
  fun log =>
    match body log with
    | (Normal a, log') => (Normal a, log')
    | (Throw e, log') => handler e log'
    end.

Definition console_error (args : list JsValue) : Eff unit := fun log =>
  (Normal tt, log ++ [mkLogEntry "error" args]).

(** A response of [fetch]: its HTTP status, which the program never
    reads, and the outcome of [response.json()]. *)
Record Response : Type := mkResponse {
  status : Z;
  json : Completion JsValue
}.

Definition ok (r : Response) : bool := Z.leb 200 (status r) && Z.leb (status r) 299.

(** The network, as [fetch] sees it. *)
Record World : Type := mkWorld {
  fetch : JsString -> Completion Response
}.

Definition getGeolocation (w : World) : Eff (gmap string JsValue) :=
  tryCatch
    (response <- await (fetch w (js "https://ipapi.co/json/"));;
     data <- await (json response);;
     country <- eval (getProp data "country_name");;
     city <- eval (getProp data "city");;
     countryCode <- eval (getProp data "country_code");;
     ret ({[ "country" := country; "city" := city; "countryCode" := countryCode ]}
            : gmap string JsValue))
    (fun error =>
       console_error [VString (js "Failed to get geolocation:"); error];;
       ret ∅).

(** ** The merge step of [handleSubmit] *)

(** [{...a, ...b}]: the properties of [a], then those of [b] over them. *)
Definition spread (a b : gmap string JsValue) : gmap string JsValue := b ∪ a.

(** [{...technicalData, location: {...technicalData.location, ...geoData}}] *)
Definition mergeMetadata (technicalData : Meta.TechnicalMetadata)
    (geoData : gmap string JsValue) : Meta.TechnicalMetadata :=
  Meta.mkTechnicalMetadata
    (Meta.browser technicalData)
    (Meta.device technicalData)
    (spread (Meta.location technicalData) geoData)
    (Meta.session technicalData)
    (Meta.technical technicalData).

(** The part of [handleSubmit] that builds the metadata to persist. *)
Definition buildMetadata (env : Env) (w : World) : Eff Meta.TechnicalMetadata :=
  let technicalData := collectTechnicalMetadata env in
  geoData <- getGeolocation w;;
  ret (mergeMetadata technicalData geoData).

(** ** The form and its submit handler ([App.tsx]) *)

Module App.

(** The four state variables of the component. *)
Record State : Type := mkAppState {
  email : JsString;
  isSubmitted : bool;
  isLoading : bool;
  error : JsString
}.

End App.

(** [{ email, metadata }] *)
Record Row : Type := mkRow {
  row_email : JsString;
  row_metadata : Meta.TechnicalMetadata
}.

(** A call [supabase.from(table).insert(rows)]. *)
Record InsertCall : Type := mkInsertCall {
  table : JsString;
  rows : list Row
}.

(** The database client: the completion with which an awaited insert
    settles. *)
Record Backend : Type := mkBackend {
  insert : JsString -> list Row -> Completion JsValue
}.

(** What the handler can change: the component state, the console, the
    inserts sent to the backend, and the submit event. *)
Record Sys : Type := mkSys {
  form : App.State;
  console : list LogEntry;
  inserted : list InsertCall;
  defaultPrevented : bool
}.

Definition Act (A : Type) : Type := Sys -> Completion A * Sys.

Definition retA {A} (a : A) : Act A := fun s => (Normal a, s).

Definition bindA {A B} (c : Act A) (f : A -> Act B) : Act B := fun s =>
  match c s with
  | (Normal a, s') => f a s'
  | (Throw e, s') => (Throw e, s')
  end.

Declare Scope act_scope.
Delimit Scope act_scope with act.
Notation "x <- c1 ;; c2" := (bindA c1 (fun x => c2))
  (at level 100, c1 at next level, right associativity) : act_scope.
Notation "c1 ;; c2" := (bindA c1 (fun _ => c2))
  (at level 100, right associativity) : act_scope.

(** [try { body } catch (err) { handler } finally { finalizer }] *)
Definition tryCatchFinally {A} (body : Act A) (handler : JsValue -> Act A)
    (finalizer : Act unit) : Act A := fun s =>
  let '(c, s1) :=
    match body s with
    | (Normal a, s') => (Normal a, s')
    | (Throw e, s') => handler e s'
    end in
  match finalizer s1 with
  | (Normal _, s2) => (c, s2)
  | (Throw e, s2) => (Throw e, s2)
  end.

Definition evalA {A} (c : Completion A) : Act A := fun s => (c, s).

(** A computation of [metadata.ts] run inside the handler. *)
Definition liftEff {A} (c : Eff A) : Act A := fun s =>
  let '(r, log) := c (console s) in
  (r, mkSys (form s) log (inserted s) (defaultPrevented s)).

Definition preventDefault : Act unit := fun s =>
  (Normal tt, mkSys (form s) (console s) (inserted s) true).

Definition setApp (f : App.State -> App.State) : Act unit := fun s =>
  (Normal tt, mkSys (f (form s)) (console s) (inserted s) (defaultPrevented s)).

Definition setEmail (v : JsString) : Act unit :=
  setApp (fun a => App.mkAppState v (App.isSubmitted a) (App.isLoading a) (App.error a)).
Definition setIsSubmitted (v : bool) : Act unit :=
  setApp (fun a => App.mkAppState (App.email a) v (App.isLoading a) (App.error a)).
Definition setIsLoading (v : bool) : Act unit :=
  setApp (fun a => App.mkAppState (App.email a) (App.isSubmitted a) v (App.error a)).
Definition setError (v : JsString) : Act unit :=
  setApp (fun a => App.mkAppState (App.email a) (App.isSubmitted a) (App.isLoading a) v).

(** [await supabase.from(table).insert(rows)], for an insert that
    settles. *)
Definition awaitInsert (b : Backend) (t : JsString) (rs : list Row) : Act JsValue :=
  fun s =>
    (insert b t rs,
     mkSys (form s) (console s) (inserted s ++ [mkInsertCall t rs]) (defaultPrevented s)).

Local Open Scope act_scope.

(** [handleSubmit], run to completion from the state the component was
    rendered with, in a run where every awaited promise settles (with the
    completion the network and the backend give; the source sets no
    timeout).  The [return] inside the [try] block ends the block,
    and nothing follows the [try] statement, so it is a normal end of the
    block; the [finally] block runs in every case. *)
Definition handleSubmit (env : Env) (w : World) (b : Backend) : Act unit :=
  preventDefault;;
  fun s =>
  let email := App.email (form s) in
  match email with
  | [] => retA tt s
  | _ :: _ =>
    (setIsLoading true;;
     setError (js "");;
     tryCatchFinally
       (let technicalData := collectTechnicalMetadata env in
        geoData <- liftEff (getGeolocation w);;
        let metadata := mergeMetadata technicalData geoData in
        result <- awaitInsert b (js "waitlist") [mkRow email metadata];;
        dbError <- evalA (getProp result "error");;
        if truthy dbError then
          code <- evalA (getProp dbError "code");;
          (if strictEqualsString code (js "23505")
           then setError (js "This email is already on the waitlist!")
           else setError (js "Something went wrong. Please try again."));;
          setIsLoading false
        else
          setIsSubmitted true;;
          setEmail (js ""))
       (fun err => setError (js "Failed to join waitlist. Please try again."))
       (setIsLoading false)) s
  end.

Local Close Scope act_scope.

(** ** Auxiliary definitions for the statements *)

(** [p] is a prefix of [s], up to case when [ignoreCase] is set. *)
Fixpoint startsWithCI (ignoreCase : bool) (p s : JsString) : bool :=
  match p, s with
  | [], _ => true
  | _ :: _, [] => false
  | a :: p', b :: s' =>
      N.eqb (canonicalize ignoreCase b) (canonicalize ignoreCase a)
      && startsWithCI ignoreCase p' s'
  end.

Definition isSome {A} (o : option A) : bool :=
  match o with Some _ => true | None => false end.

(** The reading of the specification: a classifier is an ordered list of
    rules, each a set of alternative markers with its result, evaluated in
    sequence, and the first rule with a marker present wins. *)
Definition Rule (A : Type) : Type := (list JsString * (JsString -> A))%type.

Fixpoint firstMatch {A} (rules : list (Rule A)) (default : A) (ua : JsString) : A :=
  match rules with
  | [] => default
  | (markers, result) :: rules' =>
      if existsb (includes ua) markers then result ua
      else firstMatch rules' default ua
  end.

Definition browserRules : list (Rule JsString) :=
  [ ([js "Firefox"], fun _ => js "Firefox");
    ([js "Edg"], fun _ => js "Edge");
    ([js "Chrome"], fun _ => js "Chrome");
    ([js "Safari"], fun _ => js "Safari") ].

(** The label of the macOS branch of [getOS]. *)
Definition macOSLabel (ua : JsString) : JsString :=
  js "macOS " ++
  orElse (option_map (replaceFirst 95 46) (matchGroup macVersionRe 1 ua)) [].

Definition osRules : list (Rule JsString) :=
  [ ([js "Windows NT 10"], fun _ => js "Windows 10/11");
    ([js "Windows"], fun _ => js "Windows");
    ([js "Mac OS X"], macOSLabel);
    ([js "Linux"], fun _ => js "Linux");
    ([js "Android"], fun _ => js "Android");
    ([js "iOS"; js "iPhone"; js "iPad"], fun _ => js "iOS") ].

Definition browserMarkers : list JsString :=
  [js "Firefox"; js "Edg"; js "Chrome"; js "Safari"].

Definition osMarkers : list JsString :=
  [js "Windows NT 10"; js "Windows"; js "Mac OS X"; js "Linux"; js "Android";
   js "iOS"; js "iPhone"; js "iPad"].

(** No marker of any classifier is present in [ua]. *)
Definition matchesNoMarker (ua : JsString) : bool :=
  negb (existsb (includes ua) browserMarkers)
  && negb (existsb (includes ua) osMarkers)
  && negb (test tabletRe ua)
  && negb (test mobileRe ua).

(** User agents used as examples. *)
Definition chromeUA : JsString :=
  js "Mozilla/5.0 (Windows NT 10.0; Win64; x64) AppleWebKit/537.36 (KHTML, like Gecko) Chrome/120.0.0.0 Safari/537.36".

Definition edgeUA : JsString :=
  js "Mozilla/5.0 (Windows NT 10.0; Win64; x64) AppleWebKit/537.36 (KHTML, like Gecko) Chrome/120.0.0.0 Safari/537.36 Edg/120.0.0.0".

Definition androidChromeUA : JsString :=
  js "Mozilla/5.0 (Linux; Android 13; Pixel 7) AppleWebKit/537.36 (KHTML, like Gecko) Chrome/120.0.0.0 Mobile Safari/537.36".

Definition iphoneUA : JsString :=
  js "Mozilla/5.0 (iPhone; CPU iPhone OS 17_0 like Mac OS X) AppleWebKit/605.1.15 (KHTML, like Gecko) Version/17.0 Mobile/15E148 Safari/604.1".

Definition windowsPhoneUA : JsString :=
  js "Mozilla/5.0 (Mobile; Windows Phone 8.1; Android 4.0; ARM; Trident/7.0; Touch; rv:11.0; IEMobile/11.0; NOKIA; Lumia 635) like iPhone OS 7_0_3 Mac OS X AppleWebKit/537 (KHTML, like Gecko) Mobile Safari/537".

Definition curlUA : JsString := js "curl/8.4.0".

(** The next code unit of [s], if any, is a digit. *)
Definition nextIsDigit (s : JsString) : bool :=
  match s with c :: _ => isDigit c | [] => false end.

(** [/p.../i.test(u)] restricted to the current line: [p] occurs in [u]
    after code units that [.] accepts; this is what [.*p] can match. *)
Fixpoint laterOnLine (ignoreCase : bool) (p u : JsString) : bool :=
  startsWithCI ignoreCase p u ||
  match u with
  | c :: u' => dot c && laterOnLine ignoreCase p u'
  | [] => false
  end.

(** The tablet pattern matches at the start of [t]. *)
Definition tabletAt (t : JsString) : bool :=
  startsWithCI true (js "tablet") t || startsWithCI true (js "ipad") t
  || startsWithCI true (js "playbook") t || startsWithCI true (js "silk") t
  || (startsWithCI true (js "android") t
      && negb (laterOnLine true (js "mobi") (drop 7 t))).

(** The explicit markers of the tablet pattern (matched in any case). *)
Definition tabletMarkers : list JsString :=
  [js "tablet"; js "ipad"; js "playbook"; js "silk"].

Definition hasTabletMarker (ua : JsString) : bool :=
  existsb (fun p => test (str true p) ua) tabletMarkers.

(** The strings the mobile pattern accepts (matched case-sensitively). *)
Definition mobileMarkers : list JsString :=
  [js "Mobile"; js "Android"; js "iPhone"; js "iPod"; js "IEMobile"; js "BlackBerry";
   js "Kindle"; js "Silk-Accelerated"; js "hpwOS"; js "webOS"; js "Opera Mobi";
   js "Opera Mini"].

Definition equalsIgnoreCase (a b : JsString) : bool :=
  startsWithCI true b a && Nat.eqb (length a) (length b).





(** The address [getGeolocation] fetches, and the diagnostic it writes
    for a caught [error]. *)
Definition geoUrl : JsString := js "https://ipapi.co/json/".

Definition failureEntry (error : JsValue) : LogEntry :=
  mkLogEntry "error" [VString (js "Failed to get geolocation:"); error].

Definition locationKeys : gset string := {[ "timezone"; "language" ]}.
Definition geoKeys : gset string := {[ "country"; "city"; "countryCode" ]}.

(** Networks used as examples. *)
Definition offlineWorld : World :=
  mkWorld (fun _ => Throw (VObject {[ "name" := VString (js "TypeError");
                                      "message" := VString (js "Failed to fetch") ]})).




Definition nullBodyWorld : World :=
  mkWorld (fun _ => Normal (mkResponse 200 (Normal VNull))).

Definition accraWorld : World :=
  mkWorld (fun _ =>
    Normal (mkResponse 200
      (Normal (VObject {[ "country_name" := VString (js "Ghana");
                          "city" := VString (js "Accra");
                          "country_code" := VString (js "GH") ]})))).

Definition countryOnlyWorld : World :=
  mkWorld (fun _ =>
    Normal (mkResponse 200
      (Normal (VObject {[ "country_name" := VString (js "Ghana") ]})))).

Definition exampleEnv : Env :=
  mkEnv chromeUA (js "en-GB") true VNull VUndefined VUndefined VUndefined
        1920 1080 1280 720 (js "https://example.org/") (js "")
        (js "Africa/Accra") 9 1 (js "2024-01-01T09:00:00.000Z").

Definition isVersion (v : JsString) : bool :=
  match v with [] => false | _ :: _ => forallb isDigit v end.

Definition browserVersionPrefixes : list (JsString * JsString) :=
  [ (js "Firefox", js "Firefox/"); (js "Edge", js "Edg/");
    (js "Chrome", js "Chrome/"); (js "Safari", js "Version/") ].

Definition borderFree (p : JsString) : bool :=
  forallb (fun k => negb (startsWith (drop k p) p)) (List.seq 1 (length p - 1)).

Definition legacyEdgeUA : JsString :=
  js "Mozilla/5.0 (Windows NT 10.0; Win64; x64) AppleWebKit/537.36 (KHTML, like Gecko) Chrome/64.0.3282.140 Safari/537.36 Edge/18.17763".

Definition firefoxUA : JsString :=
  js "Mozilla/5.0 (X11; Linux x86_64; rv:109.0) Gecko/20100101 Firefox/115.0".

Definition androidNotFollowedByMobi (ua : JsString) : Prop :=
  exists pre a post,
    ua = pre ++ a ++ post /\
    equalsIgnoreCase a (js "android") = true /\
    laterOnLine true (js "mobi") post = false.

Definition ipadUA : JsString :=
  js "Mozilla/5.0 (iPad; CPU OS 16_0 like Mac OS X) AppleWebKit/605.1.15 (KHTML, like Gecko) Version/16.0 Mobile/15E148 Safari/604.1".

Definition kindleSilkUA : JsString :=
  js "Mozilla/5.0 (Linux; U; en-us; KFTT Build/IML74K) AppleWebKit/535.19 (KHTML, like Gecko) Silk/3.21 Safari/535.19 Silk-Accelerated=true".

Definition mobileMarkersWithoutSilk : list JsString :=
  [js "Mobile"; js "Android"; js "iPhone"; js "iPod"; js "IEMobile"; js "BlackBerry";
   js "Kindle"; js "hpwOS"; js "webOS"; js "Opera Mobi"; js "Opera Mini"].

Definition msgDuplicate : JsString := js "This email is already on the waitlist!".
Definition msgDatabase : JsString := js "Something went wrong. Please try again.".
Definition msgFailed : JsString := js "Failed to join waitlist. Please try again.".

(** The message [handleSubmit] shows for an outcome of the insert;
    [None] when the insert succeeded. *)
Definition submitError (r : Completion JsValue) : option JsString :=
  match r with
  | Throw _ => Some msgFailed
  | Normal result =>
      match getProp result "error" with
      | Throw _ => Some msgFailed
      | Normal dbError =>
          if truthy dbError then
            match getProp dbError "code" with
            | Throw _ => Some msgFailed
            | Normal code =>
                if strictEqualsString code (js "23505") then Some msgDuplicate
                else Some msgDatabase
            end
          else None
      end
  end.

Definition appAfter (a : App.State) (outcome : option JsString) : App.State :=
  match outcome with
  | None => App.mkAppState (js "") true false (js "")
  | Some msg => App.mkAppState (App.email a) (App.isSubmitted a) false msg
  end.

Definition waitlistInsert (env : Env) (geo : gmap string JsValue) (email : JsString)
    : InsertCall :=
  mkInsertCall (js "waitlist")
    [mkRow email (mergeMetadata (collectTechnicalMetadata env) geo)].

Definition acceptingBackend : Backend :=
  mkBackend (fun _ _ => Normal (VObject {[ "error" := VNull; "status" := VString (js "201") ]})).

Definition duplicateBackend : Backend :=
  mkBackend (fun _ _ =>
    Normal (VObject {[ "error" :=
      VObject {[ "code" := VString (js "23505");
                 "message" := VString (js "duplicate key value violates unique constraint") ]} ]})).

Definition unreachableBackend : Backend :=
  mkBackend (fun _ _ => Throw (VObject {[ "name" := VString (js "TypeError") ]})).

Definition formWith (email : JsString) : Sys :=
  mkSys (App.mkAppState email false false (js "")) [] [] false.

(** The code units of a rendered number: digits, after an optional sign. *)
Definition isNumberUnit (c : N) : bool := isDigit c || N.eqb c 45.

(** Every "android" of [ua], in any letter case, is followed on its own
    line by a "mobi" in any letter case: at every position where
    [/android/i] matches, [/.*mobi/i] matches what comes after it. *)
Fixpoint everyAndroidHasMobi (ua : JsString) : bool :=
  (negb (startsWithCI true (js "android") ua)
   || laterOnLine true (js "mobi") (drop 7 ua))
  && match ua with
     | [] => true
     | _ :: t => everyAndroidHasMobi t
     end.

(** * Properties *)

Section StringFacts.

Lemma startsWithCI_false p s : startsWithCI false p s = startsWith p s.
Proof.
  revert s; induction p as [|a p IH]; intros [|b s]; simpl; try done.
  by rewrite IH, N.eqb_sym.
Qed.

Lemma startsWithCI_app i a b s :
  startsWithCI i (a ++ b) s = startsWithCI i a s && startsWithCI i b (drop (length a) s).
Proof.
  revert s; induction a as [|c a IH]; intros s; simpl; [done|].
  destruct s as [|d s]; simpl.
  - done.
  - by rewrite IH, andb_assoc.
Qed.

Lemma startsWithCI_app_r i p t u :
  startsWithCI i p t = true -> startsWithCI i p (t ++ u) = true.
Proof.
  revert t; induction p as [|a p IH]; intros [|b t]; simpl; try done.
  intros [-> H]%andb_true_iff. by rewrite (IH _ H).
Qed.

Lemma startsWithCI_app_inv i p t u :
  startsWithCI i p (t ++ u) = true ->
  startsWithCI i p t = true \/
  (length t < length p /\ startsWithCI i (drop (length t) p) u = true).
Proof.
  revert t; induction p as [|a p IH]; intros t; simpl; [by left|].
  destruct t as [|b t]; simpl.
  - intros H. right. split; [lia|done].
  - intros [-> H]%andb_true_iff. simpl.
    destruct (IH _ H) as [?|[? ?]]; [by left|right]. split; [lia|done].
Qed.

Lemma startsWithCI_length i p s : startsWithCI i p s = true -> length p <= length s.
Proof.
  revert s; induction p as [|a p IH]; intros [|b s]; simpl; try done; try lia.
  intros [_ H]%andb_true_iff. apply IH in H. lia.
Qed.

End StringFacts.

Section MatcherFacts.

Lemma str_eq i p x k :
  str i p x k =
  if startsWithCI i p (rest x)
  then k (mkState (drop (length p) (rest x)) (captures x))
  else None.
Proof.
  revert x; induction p as [|a p IH]; intros [s caps]; simpl; [done|].
  unfold seq, lit, charMatcher; simpl.
  destruct s as [|b s]; [done|].
  destruct (N.eqb _ _); simpl; [|done].
  by rewrite IH.
Qed.

Lemma matchAt_str i p s : isSome (matchAt (str i p) s) = startsWithCI i p s.
Proof. unfold matchAt. rewrite str_eq; simpl. by destruct (startsWithCI i p s). Qed.

Lemma test_true_iff m s :
  test m s = true <-> exists pre t, s = pre ++ t /\ isSome (matchAt m t) = true.
Proof.
  unfold test. induction s as [|c s IH]; simpl.
  - destruct (matchAt m []) eqn:E; split; try done.
    + intros _. exists [], []. by rewrite E.
    + intros (pre & t & Hs & Ht). symmetry in Hs.
      apply app_eq_nil in Hs as [-> ->]. by rewrite E in Ht.
  - destruct (matchAt m (c :: s)) eqn:E.
    + split; [|done]. intros _. exists [], (c :: s). by rewrite E.
    + rewrite IH. split.
      * intros (pre & t & -> & Ht). by exists (c :: pre), t.
      * intros (pre & t & Hs & Ht). destruct pre as [|d pre]; simpl in Hs.
        -- subst t. by rewrite E in Ht.
        -- injection Hs as -> ->. by exists pre, t.
Qed.

Lemma test_false_iff m s :
  test m s = false <-> forall pre t, s = pre ++ t -> isSome (matchAt m t) = false.
Proof.
  rewrite <- not_true_iff_false, test_true_iff. split.
  - intros H pre t Hs. apply not_true_iff_false. intros Ht. apply H. by exists pre, t.
  - intros H (pre & t & Hs & Ht). by rewrite (H _ _ Hs) in Ht.
Qed.

Lemma includes_test s p : includes s p = test (str false p) s.
Proof.
  unfold test. induction s as [|c s IH]; simpl.
  - pose proof (matchAt_str false p []) as H. rewrite startsWithCI_false in H.
    destruct (matchAt (str false p) []); simpl in H; rewrite <- H; by rewrite ?orb_false_r.
  - pose proof (matchAt_str false p (c :: s)) as H. rewrite startsWithCI_false in H.
    destruct (matchAt (str false p) (c :: s)); simpl in H; rewrite <- H; simpl; [done|].
    apply IH.
Qed.

Lemma includes_true_iff s p :
  includes s p = true <-> exists pre t, s = pre ++ t /\ startsWith p t = true.
Proof.
  rewrite includes_test, test_true_iff.
  by setoid_rewrite matchAt_str; setoid_rewrite startsWithCI_false.
Qed.

Lemma includes_false_iff s p :
  includes s p = false <-> forall pre t, s = pre ++ t -> startsWith p t = false.
Proof.
  rewrite includes_test, test_false_iff.
  by setoid_rewrite matchAt_str; setoid_rewrite startsWithCI_false.
Qed.

End MatcherFacts.

(** ** Day part *)

(** C5: [getTimeOfDay] maps the hour to Morning on [5,12), Afternoon on
    [12,17), Evening on [17,21) and Night otherwise; the hours
    0,4,5,11,12,16,17,20,21,23 give Night, Night, Morning, Morning,
    Afternoon, Afternoon, Evening, Evening, Night, Night. *)
Theorem getTimeOfDay_buckets :
  (forall hour : Z,
     (getTimeOfDay hour = js "Morning" <-> (5 <= hour < 12)%Z) /\
     (getTimeOfDay hour = js "Afternoon" <-> (12 <= hour < 17)%Z) /\
     (getTimeOfDay hour = js "Evening" <-> (17 <= hour < 21)%Z) /\
     (getTimeOfDay hour = js "Night" <-> (hour < 5 \/ 21 <= hour)%Z)) /\
  List.map getTimeOfDay [0; 4; 5; 11; 12; 16; 17; 20; 21; 23]%Z =
  [js "Night"; js "Night"; js "Morning"; js "Morning"; js "Afternoon";
   js "Afternoon"; js "Evening"; js "Evening"; js "Night"; js "Night"].
Proof.
  split; [|reflexivity].
  intros hour. unfold getTimeOfDay.
  destruct (Z.leb_spec 5 hour), (Z.ltb_spec hour 12),
    (Z.leb_spec 12 hour), (Z.ltb_spec hour 17),
    (Z.leb_spec 17 hour), (Z.ltb_spec hour 21); simpl;
    repeat split; intros; try lia; try discriminate; try reflexivity.
Qed.

(** ** Browser classification *)

Lemma getBrowser_firstMatch ua :
  name (getBrowser ua) = firstMatch browserRules (js "Unknown") ua.
Proof.
  unfold getBrowser, firstMatch, browserRules, existsb.
  rewrite !orb_false_r.
  by repeat (match goal with |- context [includes ua ?p] => destruct (includes ua p) end).
Qed.

(** C1 (as stated): a user agent with both "Chrome" and "Safari" that is
    not classified as Chrome: the Edge user agent carries both tokens and
    the "Edg" marker, which is tested before "Chrome". *)
Lemma getBrowser_chrome_safari_not_chrome :
  includes edgeUA (js "Chrome") = true /\
  includes edgeUA (js "Safari") = true /\
  name (getBrowser edgeUA) = js "Edge" /\
  name (getBrowser edgeUA) <> js "Chrome".
Proof. repeat split; try reflexivity. vm_compute. discriminate. Qed.

(** C1 (amended): the markers are tested in the order Firefox, Edg,
    Chrome, Safari and the first match wins; so a user agent containing
    both "Chrome" and "Safari" is never classified as Safari, and it is
    classified as Chrome exactly when it contains neither "Firefox" nor
    "Edg" (with "Firefox" it is Firefox, otherwise with "Edg" it is
    Edge). *)
Theorem getBrowser_chrome_before_safari (ua : JsString) :
  includes ua (js "Chrome") = true ->
  includes ua (js "Safari") = true ->
  name (getBrowser ua) = firstMatch browserRules (js "Unknown") ua /\
  name (getBrowser ua) <> js "Safari" /\
  name (getBrowser ua) =
    (if includes ua (js "Firefox") then js "Firefox"
     else if includes ua (js "Edg") then js "Edge"
     else js "Chrome").
Proof.
  intros HC HS. split; [apply getBrowser_firstMatch|].
  unfold getBrowser. rewrite HC.
  destruct (includes ua (js "Firefox")), (includes ua (js "Edg")); simpl;
    (split; [vm_compute; discriminate|reflexivity]).
Qed.

Lemma getBrowser_chrome_before_safari_witness :
  includes chromeUA (js "Chrome") = true /\
  includes chromeUA (js "Safari") = true /\
  name (getBrowser chromeUA) = js "Chrome".
Proof.
  split; [reflexivity|]. split; [reflexivity|].
  exact (eq_trans
    (proj2 (proj2 (getBrowser_chrome_before_safari chromeUA eq_refl eq_refl)))
    eq_refl).
Defined.

(** ** Operating-system classification *)

Lemma includes_app_l ua a b :
  includes ua (a ++ b) = true -> includes ua a = true.
Proof.
  rewrite !includes_true_iff. intros (pre & t & -> & H). exists pre, t.
  split; [done|]. rewrite <- startsWithCI_false in *.
  rewrite startsWithCI_app in H. by apply andb_true_iff in H as [? _].
Qed.

Lemma includes_windows_nt ua :
  includes ua (js "Windows") = false -> includes ua (js "Windows NT 10") = false.
Proof.
  intros H. apply not_true_iff_false. intros H'.
  apply (includes_app_l ua (js "Windows") (js " NT 10")) in H'. congruence.
Qed.

Lemma getOS_firstMatch ua : getOS ua = firstMatch osRules (js "Unknown") ua.
Proof.
  unfold getOS, firstMatch, osRules, existsb, macOSLabel.
  rewrite !orb_false_r.
  by repeat (match goal with |- context [includes ua ?p] => destruct (includes ua p) end).
Qed.

Lemma macOSLabel_not_iOS ua : macOSLabel ua <> js "iOS".
Proof. unfold macOSLabel. simpl. discriminate. Qed.

(** C8 (as stated): a user agent with both "Mac OS X" and "iPhone"
    whose result is not the macOS label, and which also has "Android"
    without being classified by the later rules: the "Windows" marker is
    tested first. *)
Lemma getOS_mac_iphone_not_macOS :
  includes windowsPhoneUA (js "Mac OS X") = true /\
  includes windowsPhoneUA (js "iPhone") = true /\
  getOS windowsPhoneUA = js "Windows" /\
  getOS windowsPhoneUA <> macOSLabel windowsPhoneUA.
Proof. repeat split; try reflexivity. vm_compute. discriminate. Qed.

(** C8 (amended): [getOS] tests the markers in the order "Windows NT 10",
    "Windows", "Mac OS X", "Linux", "Android", then "iOS", "iPhone" or
    "iPad", first match wins, default "Unknown".  So a user agent with
    both "Linux" and "Android" is never classified as Android, and is
    Linux when it has neither "Windows" nor "Mac OS X"; a user agent with
    "Mac OS X" and "iPhone" or "iPad" is never classified as iOS, and
    gets the macOS label when it has no "Windows". *)
Theorem getOS_marker_order (ua : JsString) :
  getOS ua = firstMatch osRules (js "Unknown") ua /\
  (includes ua (js "Linux") = true -> includes ua (js "Android") = true ->
   getOS ua <> js "Android" /\
   (includes ua (js "Windows") = false -> includes ua (js "Mac OS X") = false ->
    getOS ua = js "Linux")) /\
  (includes ua (js "Mac OS X") = true ->
   includes ua (js "iPhone") = true \/ includes ua (js "iPad") = true ->
   getOS ua <> js "iOS" /\
   (includes ua (js "Windows") = false -> getOS ua = macOSLabel ua)).
Proof.
  split; [apply getOS_firstMatch|]. split.
  - intros HL HA. split.
    + unfold getOS. rewrite HL.
      destruct (includes ua (js "Windows NT 10")); [vm_compute; discriminate|].
      destruct (includes ua (js "Windows")); [vm_compute; discriminate|].
      destruct (includes ua (js "Mac OS X")); [simpl; discriminate|].
      vm_compute; discriminate.
    + intros HW HM. unfold getOS.
      by rewrite (includes_windows_nt _ HW), HW, HM, HL.
  - intros HM _. split.
    + unfold getOS. rewrite HM.
      destruct (includes ua (js "Windows NT 10")); [vm_compute; discriminate|].
      destruct (includes ua (js "Windows")); [vm_compute; discriminate|].
      apply macOSLabel_not_iOS.
    + intros HW. unfold getOS.
      by rewrite (includes_windows_nt _ HW), HW, HM.
Qed.

Lemma getOS_marker_order_witness :
  (includes androidChromeUA (js "Linux") = true /\
   includes androidChromeUA (js "Android") = true /\
   getOS androidChromeUA = js "Linux") /\
  (includes iphoneUA (js "Mac OS X") = true /\
   includes iphoneUA (js "iPhone") = true /\
   getOS iphoneUA = js "macOS " /\ getOS iphoneUA <> js "iOS").
Proof.
  split.
  - split; [reflexivity|]. split; [reflexivity|].
    exact (proj2 (proj1 (proj2 (getOS_marker_order androidChromeUA)) eq_refl eq_refl)
             eq_refl eq_refl).
  - split; [reflexivity|]. split; [reflexivity|]. split.
    + exact (eq_trans
        (proj2 (proj2 (proj2 (getOS_marker_order iphoneUA)) eq_refl (or_introl eq_refl))
           eq_refl) eq_refl).
    + exact (proj1 (proj2 (proj2 (getOS_marker_order iphoneUA)) eq_refl
                      (or_introl eq_refl))).
Defined.

(** ** Defaults for an unrecognized user agent *)

Lemma existsb_includes_false ua markers p :
  existsb (includes ua) markers = false -> In p markers -> includes ua p = false.
Proof.
  intros H Hin. apply not_true_iff_false. intros Hp.
  apply not_true_iff_false in H. apply H, existsb_exists. by exists p.
Qed.

(** C6: for the empty user agent, and for every user agent in which no
    marker of the classifiers is present, the browser is "Unknown" with
    version "unknown", the operating system is "Unknown" and the device is
    desktop.  The classifiers and [collectTechnicalMetadata] are total
    functions outside the effect type [Eff]: they raise nothing and write
    nothing to the console. *)
Theorem unrecognized_userAgent_defaults :
  matchesNoMarker [] = true /\
  forall ua : JsString,
    matchesNoMarker ua = true ->
    getBrowser ua = mkBrowser (js "Unknown") (js "unknown") /\
    getOS ua = js "Unknown" /\
    getDeviceType ua = desktop /\
    forall env : Env,
      navigator_userAgent env = ua ->
      let m := collectTechnicalMetadata env in
      Meta.name (Meta.browser m) = js "Unknown" /\
      Meta.version (Meta.browser m) = js "unknown" /\
      Meta.os (Meta.device m) = js "Unknown" /\
      Meta.type (Meta.device m) = desktop.
Proof.
  split; [reflexivity|].
  intros ua H. unfold matchesNoMarker in H.
  apply andb_true_iff in H as [H Hmob].
  apply andb_true_iff in H as [H Htab].
  apply andb_true_iff in H as [Hb Ho].
  apply negb_true_iff in Hmob, Htab, Hb, Ho.
  assert (HB : getBrowser ua = mkBrowser (js "Unknown") (js "unknown")).
  { unfold getBrowser.
    rewrite !(existsb_includes_false ua browserMarkers) by (done || (simpl; tauto)).
    done. }
  assert (HO : getOS ua = js "Unknown").
  { unfold getOS.
    rewrite !(existsb_includes_false ua osMarkers) by (done || (simpl; tauto)).
    done. }
  assert (HD : getDeviceType ua = desktop).
  { unfold getDeviceType. by rewrite Htab, Hmob. }
  repeat split; try done.
  all: intros; subst ua; simpl; by rewrite ?HB, ?HO, ?HD.
Qed.

Lemma unrecognized_userAgent_defaults_witness :
  matchesNoMarker curlUA = true /\
  getBrowser curlUA = mkBrowser (js "Unknown") (js "unknown") /\
  getOS curlUA = js "Unknown" /\
  getDeviceType curlUA = desktop.
Proof.
  split; [reflexivity|].
  pose proof (proj2 unrecognized_userAgent_defaults curlUA eq_refl) as H.
  exact (conj (proj1 H) (conj (proj1 (proj2 H)) (proj1 (proj2 (proj2 H))))).
Defined.

(** ** Facts about the patterns *)

Ltac js_norm :=
  repeat match goal with
  | |- context [js ?s] =>
      let v := eval vm_compute in (js s) in change (js s) with v
  end.

Lemma take_captured (a b : JsString) :
  take (length (a ++ b) - length b) (a ++ b) = a.
Proof. rewrite length_app, Nat.add_sub. apply take_app_length. Qed.

Lemma starLoop_stop r caps k :
  nextIsDigit r = false -> starLoop isDigit r caps k = k (mkState r caps).
Proof. destruct r as [|c r]; simpl; [done|]. by intros ->. Qed.

Lemma matchAt_mac post :
  nextIsDigit post = false ->
  matchAt macVersionRe (js "Mac OS X 10_15" ++ post) = Some (mkState post [(1, js "10_15")]).
Proof.
  intros H. unfold matchAt, macVersionRe, seq. rewrite str_eq.
  js_norm. cbn.
  unfold group, seq, plus, seq, star, charMatcher. cbn.
  rewrite (starLoop_stop _ _ _ H). cbn.
  by replace (S (S (S (S (S (length post))))) - length post) with 5 by lia.
Qed.

Lemma exec_skip m pre s :
  (forall pre' t, pre = pre' ++ t -> t <> [] -> matchAt m (t ++ s) = None) ->
  exec m (pre ++ s) = exec m s.
Proof.
  induction pre as [|c pre IH]; intros H; [done|].
  change ((c :: pre) ++ s) with (c :: (pre ++ s)). cbn [exec].
  change (c :: (pre ++ s)) with ((c :: pre) ++ s).
  rewrite (H [] (c :: pre) eq_refl) by done.
  apply IH. intros pre' t -> Ht. by apply (H (c :: pre') t).
Qed.

Lemma no_match_before_mac pre t rest0 :
  includes pre (js "Mac OS X ") = false ->
  (exists pre', pre = pre' ++ t) -> t <> [] ->
  matchAt macVersionRe (t ++ js "Mac OS X 10_15" ++ rest0) = None.
Proof.
  intros Hinc [pre' ->] Ht.
  unfold matchAt, macVersionRe, seq. rewrite str_eq. cbn [rest].
  destruct (startsWithCI false (js "Mac OS X ") (t ++ js "Mac OS X 10_15" ++ rest0)) eqn:E;
    [|done].
  exfalso. apply startsWithCI_app_inv in E as [E|[Hlen E]].
  - rewrite startsWithCI_false in E.
    rewrite includes_false_iff in Hinc. by rewrite (Hinc pre' t eq_refl) in E.
  - destruct t as [|c0 t]; [done|]. clear -Hlen E.
    revert E. js_norm. cbn [length] in *.
    do 8 (destruct t as [|? t]; [by cbn|]). cbn in Hlen. lia.
Qed.

Lemma exec_unfold m s :
  exec m s =
  match matchAt m s with
  | Some r => Some r
  | None => match s with [] => None | _ :: t => exec m t end
  end.
Proof. by destruct s. Qed.

Lemma starLoop_dot_then i p u caps :
  isSome (starLoop dot u caps (fun y => str i p y Some)) = laterOnLine i p u.
Proof.
  induction u as [|c u IH]; cbn [starLoop laterOnLine].
  - rewrite str_eq; cbn [rest]. destruct (startsWithCI i p []); by rewrite ?orb_false_r.
  - destruct (dot c); cbn [andb].
    + rewrite <- IH.
      destruct (starLoop dot u caps _); cbn [isSome]; [by rewrite orb_true_r|].
      rewrite str_eq; cbn [rest]. destruct (startsWithCI i p (c :: u)); by rewrite ?orb_false_r.
    + rewrite str_eq; cbn [rest]. destruct (startsWithCI i p (c :: u)); by rewrite ?orb_false_r.
Qed.

Lemma matchAt_tabletRe t : isSome (matchAt tabletRe t) = tabletAt t.
Proof.
  unfold matchAt, tabletRe, tabletAt, alt, group, seq, negLookahead, star.
  rewrite !str_eq. cbn [rest captures].
  destruct (startsWithCI true (js "tablet") t); [done|].
  destruct (startsWithCI true (js "ipad") t); [done|].
  destruct (startsWithCI true (js "playbook") t); [done|].
  destruct (startsWithCI true (js "silk") t); [done|].
  cbn [orb].
  destruct (startsWithCI true (js "android") t); [|done].
  cbn [andb]. change (length (js "android")) with 7.
  rewrite <- (starLoop_dot_then true (js "mobi") (drop 7 t) []).
  by destruct (starLoop dot (drop 7 t) [] _).
Qed.

Lemma startsWith_app a b s :
  startsWith (a ++ b) s = startsWith a s && startsWith b (drop (length a) s).
Proof. rewrite <- !startsWithCI_false. apply startsWithCI_app. Qed.

Lemma matchAt_mobileRe t :
  isSome (matchAt mobileRe t) = existsb (fun p => startsWith p t) mobileMarkers.
Proof.
  unfold mobileMarkers, existsb.
  change (js "iPhone") with (js "iP" ++ js "hone").
  change (js "iPod") with (js "iP" ++ js "od").
  change (js "hpwOS") with (js "hpw" ++ js "OS").
  change (js "webOS") with (js "web" ++ js "OS").
  change (js "Opera Mobi") with (js "Opera M" ++ js "obi").
  change (js "Opera Mini") with (js "Opera M" ++ js "ini").
  rewrite !startsWith_app, <- !startsWithCI_false.
  unfold matchAt, mobileRe, alt, group, seq.
  rewrite !str_eq. cbn [rest captures].
  repeat match goal with
  | |- context [startsWithCI false ?p ?s] => destruct (startsWithCI false p s); cbn -[js]
  end; try done.
Qed.

Lemma test_mobileRe s : test mobileRe s = existsb (includes s) mobileMarkers.
Proof.
  apply eq_true_iff_eq. rewrite test_true_iff, existsb_exists. split.
  - intros (pre & t & -> & H). rewrite matchAt_mobileRe in H.
    apply existsb_exists in H as (p & Hin & Hp). exists p. split; [done|].
    apply includes_true_iff. by exists pre, t.
  - intros (p & Hin & Hp). apply includes_true_iff in Hp as (pre & t & -> & Hp).
    exists pre, t. split; [done|]. rewrite matchAt_mobileRe.
    apply existsb_exists. by exists p.
Qed.

Lemma test_str_false i p s pre t :
  test (str i p) s = false -> s = pre ++ t -> startsWithCI i p t = false.
Proof.
  intros H Hs. rewrite test_false_iff in H. rewrite <- matchAt_str. by apply (H pre).
Qed.

Lemma hasTabletMarker_false ua p pre t :
  hasTabletMarker ua = false -> In p tabletMarkers -> ua = pre ++ t ->
  startsWithCI true p t = false.
Proof.
  intros H Hin Hs. apply (test_str_false _ _ ua pre); [|done].
  apply not_true_iff_false. intros Hp. apply not_true_iff_false in H. apply H.
  apply existsb_exists. by exists p.
Qed.

Lemma laterOnLine_app i p u v :
  forallb dot u = true -> startsWithCI i p v = true -> laterOnLine i p (u ++ v) = true.
Proof.
  intros Hu Hv. induction u as [|c u IH]; cbn [app].
  - destruct v; cbn [laterOnLine]; by rewrite Hv.
  - cbn [laterOnLine]. cbn [forallb] in Hu. apply andb_true_iff in Hu as [-> Hu].
    rewrite (IH Hu). by rewrite orb_true_r.
Qed.


Lemma forallb_drop {A} (f : A -> bool) n l : forallb f l = true -> forallb f (drop n l) = true.
Proof.
  revert n; induction l as [|x l IH]; intros [|n]; cbn; try done.
  intros [_ H]%andb_true_iff. by apply IH.
Qed.

Lemma forallb_suffix {A} (f : A -> bool) l1 l2 :
  forallb f (l1 ++ l2) = true -> forallb f l2 = true.
Proof. rewrite forallb_app. by intros [_ ?]%andb_true_iff. Qed.

(** The four code units of a spelling of "mobi". *)
Lemma equalsIgnoreCase_mobi M :
  equalsIgnoreCase M (js "mobi") = true ->
  exists m1 m2 m3 m4, M = [m1; m2; m3; m4] /\
    upperAscii m1 = 77%N /\ upperAscii m2 = 79%N /\ upperAscii m3 = 66%N /\ upperAscii m4 = 73%N.
Proof.
  unfold equalsIgnoreCase. js_norm. intros [H Hl]%andb_true_iff.
  apply Nat.eqb_eq in Hl.
  destruct M as [|m1 [|m2 [|m3 [|m4 [|m5 M]]]]]; try done.
  cbn in H. rewrite !andb_true_iff, !N.eqb_eq in H.
  exists m1, m2, m3, m4.
  tauto.
Qed.

Lemma android_not_across_mobi k m1 v :
  upperAscii m1 = 77%N -> k < 7 ->
  startsWithCI true (drop k (js "android")) (m1 :: v) = false.
Proof.
  intros Hm Hk. js_norm.
  do 7 (destruct k as [|k]; [cbn [drop startsWithCI canonicalize]; by rewrite Hm|]).
  lia.
Qed.

Lemma tabletRe_fails w M post :
  hasTabletMarker (w ++ M ++ post) = false ->
  forallb dot w = true ->
  equalsIgnoreCase M (js "mobi") = true ->
  test (str true (js "android")) post = false ->
  test tabletRe (w ++ M ++ post) = false.
Proof.
  intros Hmark Hline HM Hpost. apply test_false_iff. intros pre t Hs.
  rewrite matchAt_tabletRe. unfold tabletAt.
  rewrite !(hasTabletMarker_false _ _ pre t Hmark) by (done || (cbn; tauto)).
  cbn [orb]. destruct (startsWithCI true (js "android") t) eqn:Ha; [|done].
  cbn [andb]. apply negb_false_iff.
  pose proof HM as HM'. apply equalsIgnoreCase_mobi in HM' as (m1 & m2 & m3 & m4 & HMeq & H1 & H2 & H3 & H4).
  subst M.
  apply app_eq_inv in Hs as [(w2 & -> & ->)|(p2 & -> & Hs)].
  - (* the match starts inside [w] *)
    apply startsWithCI_app_inv in Ha as [Ha|[Hlen Ha]].
    + pose proof (startsWithCI_length _ _ _ Ha) as Hl. change (length (js "android")) with 7 in Hl.
      rewrite drop_app_le by done.
      apply laterOnLine_app.
      * apply forallb_drop. by apply forallb_suffix in Hline.
      * apply startsWithCI_app_r. unfold equalsIgnoreCase in HM.
        by apply andb_true_iff in HM as [? _].
    + change (length (js "android")) with 7 in Hlen.
      cbn [app] in Ha. by rewrite android_not_across_mobi in Ha.
  - (* the match starts at or after the "mobi" *)
    exfalso. apply app_eq_inv in Hs as [(m' & Hm' & ->)|(q & -> & ->)].
    + destruct m' as [|c m'].
      * cbn [app] in Ha. by rewrite (test_str_false _ _ _ [] post Hpost) in Ha.
      * assert (upperAscii c = 77%N \/ upperAscii c = 79%N \/ upperAscii c = 66%N
                \/ upperAscii c = 73%N) as Hc.
        { destruct p2 as [|? [|? [|? [|? p2]]]]; cbn in Hm'; simplify_eq; try tauto.
          by destruct p2. }
        revert Ha. js_norm. cbn [app startsWithCI canonicalize].
        by destruct Hc as [->|[->|[->| ->]]].
    + by rewrite (test_str_false _ _ _ q t Hpost) in Ha.
Qed.

(** ** The macOS version label *)

(** C7 (as stated): user agents that contain "Mac OS X 10_15" and do not
    get the label "macOS 10.15": the version pattern takes every digit
    after the separator, and the "Windows" markers are tested before
    "Mac OS X". *)
Lemma getOS_mac_10_15_other_label :
  (includes (js "Mac OS X 10_150") (js "Mac OS X 10_15") = true /\
   getOS (js "Mac OS X 10_150") = js "macOS 10.150") /\
  (includes (js "Windows; like Mac OS X 10_15") (js "Mac OS X 10_15") = true /\
   getOS (js "Windows; like Mac OS X 10_15") = js "Windows") /\
  getOS (js "Mac OS X 10_150") <> js "macOS 10.15".
Proof. repeat split; try reflexivity. vm_compute. discriminate. Qed.

(** C7 (amended): the user agent "Mac OS X 10_15" gets the label
    "macOS 10.15"; so does every user agent without a "Windows" marker
    whose first "Mac OS X " is followed by "10_15" and then by no further
    digit: the token "10_15" is extracted, its underscore becomes a
    period, and the result is appended to "macOS ". *)
Theorem getOS_mac_10_15 :
  getOS (js "Mac OS X 10_15") = js "macOS 10.15" /\
  forall pre post : JsString,
    includes (pre ++ js "Mac OS X 10_15" ++ post) (js "Windows") = false ->
    includes pre (js "Mac OS X ") = false ->
    nextIsDigit post = false ->
    matchGroup macVersionRe 1 (pre ++ js "Mac OS X 10_15" ++ post) = Some (js "10_15") /\
    getOS (pre ++ js "Mac OS X 10_15" ++ post) = js "macOS 10.15".
Proof.
  split; [reflexivity|].
  intros pre post HW Hpre Hpost.
  assert (HG : matchGroup macVersionRe 1 (pre ++ js "Mac OS X 10_15" ++ post)
               = Some (js "10_15")).
  { unfold matchGroup. rewrite exec_skip.
    - rewrite exec_unfold, matchAt_mac by done. reflexivity.
    - intros pre' t -> Ht. apply (no_match_before_mac (pre' ++ t)); eauto. }
  split; [done|].
  unfold getOS. rewrite (includes_windows_nt _ HW), HW.
  assert (includes (pre ++ js "Mac OS X 10_15" ++ post) (js "Mac OS X") = true) as ->.
  { apply includes_true_iff. exists pre, (js "Mac OS X 10_15" ++ post). split; [done|].
    rewrite <- startsWithCI_false. apply startsWithCI_app_r. reflexivity. }
  rewrite HG. reflexivity.
Qed.

Lemma getOS_mac_10_15_witness :
  getOS (js "Mozilla/5.0 (Macintosh; Intel Mac OS X 10_15_7) AppleWebKit/605.1.15 (KHTML, like Gecko) Version/17.0 Safari/605.1.15")
  = js "macOS 10.15".
Proof.
  exact (proj2 (proj2 getOS_mac_10_15
    (js "Mozilla/5.0 (Macintosh; Intel ")
    (js "_7) AppleWebKit/605.1.15 (KHTML, like Gecko) Version/17.0 Safari/605.1.15")
    eq_refl eq_refl eq_refl)).
Defined.

(** ** Device classification *)








(** C10 (as stated): user agents with a lower-case "android" followed by
    a lower-case "mobi" and no other marker that are tablets, not desktop:
    an "android" after the "mobi" has no "mobi" after it, and a "mobi" on
    a later line is out of reach of [.*]. *)
Lemma getDeviceType_android_mobi_android :
  (hasTabletMarker (js "android mobi android") = false /\
   existsb (includes (js "android mobi android")) mobileMarkers = false /\
   getDeviceType (js "android mobi android") = tablet) /\
  (hasTabletMarker (js "android" ++ [10%N] ++ js "mobi") = false /\
   existsb (includes (js "android" ++ [10%N] ++ js "mobi")) mobileMarkers = false /\
   getDeviceType (js "android" ++ [10%N] ++ js "mobi") = tablet).
Proof. repeat split; reflexivity. Qed.

Lemma everyAndroidHasMobi_suffix ua pre t :
  everyAndroidHasMobi ua = true -> ua = pre ++ t ->
  startsWithCI true (js "android") t = true ->
  laterOnLine true (js "mobi") (drop 7 t) = true.
Proof.
  revert ua. induction pre as [|c pre IH]; intros ua H -> Ha.
  - cbn [app] in H. destruct t as [|c t]; [done|].
    cbn [everyAndroidHasMobi] in H. apply andb_true_iff in H as [H _].
    by rewrite Ha in H.
  - cbn [app everyAndroidHasMobi] in H. apply andb_true_iff in H as [_ H].
    by apply (IH _ H).
Qed.

(** C10 (amended): the tablet test ignores case and the mobile test does
    not.  For a user agent with a lower-case "android" followed by a
    lower-case "mobi", in which every "android" in any letter case is
    followed on its own line by a "mobi" in any letter case, with none of
    the markers tablet, ipad, playbook, silk in any letter case and none
    of the strings of the mobile pattern in their exact case, the tablet
    pattern fails, the mobile pattern fails, and the device is desktop. *)
Theorem getDeviceType_lowercase_android_mobi (pre mid post : JsString) :
  hasTabletMarker (pre ++ js "android" ++ mid ++ js "mobi" ++ post) = false ->
  existsb (includes (pre ++ js "android" ++ mid ++ js "mobi" ++ post)) mobileMarkers = false ->
  everyAndroidHasMobi (pre ++ js "android" ++ mid ++ js "mobi" ++ post) = true ->
  test tabletRe (pre ++ js "android" ++ mid ++ js "mobi" ++ post) = false /\
  test mobileRe (pre ++ js "android" ++ mid ++ js "mobi" ++ post) = false /\
  getDeviceType (pre ++ js "android" ++ mid ++ js "mobi" ++ post) = desktop.
Proof.
  intros Hmark Hmob Hevery.
  assert (HT : test tabletRe (pre ++ js "android" ++ mid ++ js "mobi" ++ post) = false).
  { apply test_false_iff. intros p t Hs. rewrite matchAt_tabletRe. unfold tabletAt.
    rewrite !(hasTabletMarker_false _ _ p t Hmark) by (done || (cbn; tauto)).
    cbn [orb]. destruct (startsWithCI true (js "android") t) eqn:Ha; [|done].
    by rewrite (everyAndroidHasMobi_suffix _ p t Hevery Hs Ha). }
  assert (HM : test mobileRe (pre ++ js "android" ++ mid ++ js "mobi" ++ post) = false)
    by (by rewrite test_mobileRe).
  repeat split; try done. unfold getDeviceType. by rewrite HT, HM.
Qed.

Lemma getDeviceType_lowercase_android_mobi_witness :
  test tabletRe (js "android 9; mobi") = false /\
  test mobileRe (js "android 9; mobi") = false /\
  getDeviceType (js "android 9; mobi") = desktop.
Proof.
  exact (getDeviceType_lowercase_android_mobi [] (js " 9; ") []
           eq_refl eq_refl eq_refl).
Defined.

(** An "android" on an earlier line has no "mobi" after it on that line:
    the condition fails and the device is a tablet. *)
Example getDeviceType_android_on_earlier_line :
  everyAndroidHasMobi (js "android" ++ [10%N] ++ js "android mobi") = false /\
  getDeviceType (js "android" ++ [10%N] ++ js "android mobi") = tablet.
Proof. split; reflexivity. Qed.

(** The condition on the "android"s cannot be dropped: without an explicit
    tablet marker the tablet pattern fails exactly under it. *)
Lemma tabletRe_fails_iff ua :
  hasTabletMarker ua = false ->
  (test tabletRe ua = false <-> everyAndroidHasMobi ua = true).
Proof.
  intros Hmark. split.
  - intros HT. rewrite test_false_iff in HT.
    assert (H : forall pre t, ua = pre ++ t -> everyAndroidHasMobi t = true).
    { intros pre t. revert pre. induction t as [|c t IH]; intros pre Hs.
      - reflexivity.
      - cbn [everyAndroidHasMobi]. apply andb_true_iff. split.
        + specialize (HT pre (c :: t) Hs). rewrite matchAt_tabletRe in HT.
          unfold tabletAt in HT. apply orb_false_iff in HT as [_ HT].
          destruct (startsWithCI true (js "android") (c :: t)); [|done].
          cbn [andb] in HT. apply negb_false_iff in HT. by rewrite HT.
        + apply (IH (pre ++ [c])). by rewrite <- app_assoc. }
    by apply (H []).
  - intros Hevery. apply test_false_iff. intros p t Hs.
    rewrite matchAt_tabletRe. unfold tabletAt.
    rewrite !(hasTabletMarker_false _ _ p t Hmark) by (done || (cbn; tauto)).
    cbn [orb]. destruct (startsWithCI true (js "android") t) eqn:Ha; [|done].
    by rewrite (everyAndroidHasMobi_suffix _ p t Hevery Hs Ha).
Qed.

(** ** Geolocation enrichment *)

Lemma getGeolocation_fetch_throws w log e :
  fetch w geoUrl = Throw e ->
  getGeolocation w log = (Normal ∅, log ++ [failureEntry e]).
Proof.
  intros H. unfold getGeolocation, tryCatch, bind, await, eval. fold geoUrl. by rewrite H.
Qed.

Lemma getGeolocation_json_throws w log r e :
  fetch w geoUrl = Normal r -> json r = Throw e ->
  getGeolocation w log = (Normal ∅, log ++ [failureEntry e]).
Proof.
  intros H1 H2. unfold getGeolocation, tryCatch, bind, await, eval. fold geoUrl.
  by rewrite H1, H2.
Qed.

Lemma getGeolocation_nullish w log r data :
  fetch w geoUrl = Normal r -> json r = Normal data ->
  data = VNull \/ data = VUndefined ->
  getGeolocation w log = (Normal ∅, log ++ [failureEntry TypeError]).
Proof.
  intros H1 H2 Hd. unfold getGeolocation, tryCatch, bind, await, eval. fold geoUrl.
  rewrite H1, H2. by destruct Hd as [-> | ->].
Qed.

Lemma getGeolocation_parsed w log r data :
  fetch w geoUrl = Normal r -> json r = Normal data ->
  data <> VNull -> data <> VUndefined ->
  getGeolocation w log =
    (Normal {[ "country" := getPropOpt data "country_name";
               "city" := getPropOpt data "city";
               "countryCode" := getPropOpt data "country_code" ]}, log).
Proof.
  intros H1 H2 Hn Hu. unfold getGeolocation, tryCatch, bind, await, eval. fold geoUrl.
  rewrite H1, H2. by destruct data.
Qed.




(** C9 (as stated): a fetch and a parse that both succeed, with the body
    [null], after which the record returned has none of the three keys:
    the property read on [null] throws and is caught. *)
Lemma getGeolocation_null_body_no_keys :
  (exists r, fetch nullBodyWorld geoUrl = Normal r /\ json r = Normal VNull) /\
  getGeolocation nullBodyWorld [] = (Normal ∅, [failureEntry TypeError]) /\
  (∅ : gmap string JsValue) !! "country" = None.
Proof. split; [by eexists|]. split; reflexivity. Qed.

(** C9 (amended): on every successful fetch-and-parse whose parsed body
    is not null, [getGeolocation] returns a record with exactly the keys
    country, city and countryCode, bound to the body's country_name, city
    and country_code; a field missing from the body leaves its key present
    and bound to undefined, and nothing is written to the console. *)
Theorem getGeolocation_success_keys (w : World) (log : list LogEntry)
    (r : Response) (data : JsValue) :
  fetch w geoUrl = Normal r ->
  json r = Normal data ->
  data <> VNull ->
  data <> VUndefined ->
  exists geo : gmap string JsValue,
    getGeolocation w log = (Normal geo, log) /\
    dom geo = geoKeys /\
    geo !! "country" = Some (getPropOpt data "country_name") /\
    geo !! "city" = Some (getPropOpt data "city") /\
    geo !! "countryCode" = Some (getPropOpt data "country_code") /\
    (forall props : gmap string JsValue,
       data = VObject props ->
       (props !! "country_name" = None -> geo !! "country" = Some VUndefined) /\
       (props !! "city" = None -> geo !! "city" = Some VUndefined) /\
       (props !! "country_code" = None -> geo !! "countryCode" = Some VUndefined)).
Proof.
  intros Hf Hj Hn Hu. eexists. split; [by apply (getGeolocation_parsed _ _ r)|].
  split; [unfold geoKeys; rewrite !dom_insert_L, dom_singleton_L; set_solver|].
  split; [by simplify_map_eq|]. split; [by simplify_map_eq|]. split; [by simplify_map_eq|].
  intros props ->. unfold getPropOpt, getProp.
  repeat split; intros ->; by simplify_map_eq.
Qed.

Example getGeolocation_accra :
  getGeolocation accraWorld [] =
    (Normal {[ "country" := VString (js "Ghana"); "city" := VString (js "Accra");
               "countryCode" := VString (js "GH") ]}, []).
Proof. reflexivity. Qed.

Lemma getGeolocation_success_keys_witness :
  exists geo : gmap string JsValue,
    getGeolocation countryOnlyWorld [] = (Normal geo, []) /\
    geo !! "country" = Some (VString (js "Ghana")) /\
    geo !! "city" = Some VUndefined /\
    geo !! "countryCode" = Some VUndefined.
Proof.
  destruct (getGeolocation_success_keys countryOnlyWorld []
              (mkResponse 200 (Normal (VObject {[ "country_name" := VString (js "Ghana") ]})))
              (VObject {[ "country_name" := VString (js "Ghana") ]})
              eq_refl eq_refl ltac:(discriminate) ltac:(discriminate))
    as (geo & H1 & _ & H2 & H3 & H4 & _).
  exists geo. split; [exact H1|]. split; [exact H2|]. split; [exact H3|exact H4].
Defined.

(** ** Merging the enrichment into the record *)

Lemma collect_location_dom env :
  dom (Meta.location (collectTechnicalMetadata env)) = locationKeys.
Proof.
  unfold locationKeys. cbn [collectTechnicalMetadata Meta.location].
  rewrite dom_insert_L, dom_singleton_L. set_solver.
Qed.

Lemma geoKeys_not_locationKeys k : k ∈ geoKeys -> k ∉ locationKeys.
Proof.
  unfold geoKeys, locationKeys. rewrite !elem_of_union, !elem_of_singleton.
  intros [[-> | ->] | ->] [? | ?]; discriminate.
Qed.

Lemma getGeolocation_dom w log geo log' :
  getGeolocation w log = (Normal geo, log') -> dom geo ⊆ geoKeys.
Proof.
  intros H.
  destruct (fetch w geoUrl) as [r|e] eqn:Hf.
  - destruct (json r) as [data|e] eqn:Hj.
    + destruct data eqn:Hd;
        try (rewrite (getGeolocation_parsed _ _ r _ Hf Hj) in H by done;
             simplify_eq; unfold geoKeys;
             rewrite !dom_insert_L, dom_singleton_L; set_solver);
        rewrite (getGeolocation_nullish _ _ r _ Hf Hj) in H by tauto;
        simplify_eq; set_solver.
    + rewrite (getGeolocation_json_throws _ _ r e Hf Hj) in H. simplify_eq. set_solver.
  - rewrite (getGeolocation_fetch_throws _ _ e Hf) in H. simplify_eq. set_solver.
Qed.

(** C4: for every synchronous record and every enrichment result, the
    merged record has the browser, device, session and technical parts
    unchanged and every location field of the synchronous pass (timezone,
    language) with its value; the key sets are disjoint, so nothing is
    overwritten and the order of the merge does not matter.  Each
    enrichment field that is present is in the merged location with its
    value; each one that is absent is absent from the merged location,
    not null. *)
Theorem mergeMetadata_frame (env : Env) (geoData : gmap string JsValue) :
  dom geoData ⊆ geoKeys ->
  let technicalData := collectTechnicalMetadata env in
  let metadata := mergeMetadata technicalData geoData in
  Meta.browser metadata = Meta.browser technicalData /\
  Meta.device metadata = Meta.device technicalData /\
  Meta.session metadata = Meta.session technicalData /\
  Meta.technical metadata = Meta.technical technicalData /\
  dom (Meta.location technicalData) ## dom geoData /\
  (forall k v, Meta.location technicalData !! k = Some v ->
     Meta.location metadata !! k = Some v) /\
  (forall k v, geoData !! k = Some v -> Meta.location metadata !! k = Some v) /\
  (forall k, k ∈ geoKeys -> geoData !! k = None ->
     Meta.location metadata !! k = None /\ Meta.location metadata !! k <> Some VNull) /\
  dom (Meta.location metadata) = locationKeys ∪ dom geoData /\
  spread (Meta.location technicalData) geoData
    = spread geoData (Meta.location technicalData).
Proof.
  intros Hdom technicalData metadata.
  assert (Hdisj : dom (Meta.location technicalData) ## dom geoData).
  { unfold technicalData. rewrite collect_location_dom.
    intros k Hk1 Hk2. by apply (geoKeys_not_locationKeys k); [apply Hdom|]. }
  assert (Hmap : geoData ##ₘ Meta.location technicalData).
  { apply map_disjoint_dom. by symmetry. }
  repeat split; try done.
  - intros k v Hk. cbn [metadata mergeMetadata Meta.location]. unfold spread.
    apply lookup_union_Some_raw. right. split; [|done].
    apply not_elem_of_dom. intros Hg. apply (Hdisj k); [|done].
    apply elem_of_dom. eauto.
  - intros k v Hk. cbn [metadata mergeMetadata Meta.location]. unfold spread.
    by apply lookup_union_Some_l.
  - cbn [metadata mergeMetadata Meta.location]. unfold spread.
    apply lookup_union_None. split; [done|].
    apply not_elem_of_dom. unfold technicalData. rewrite collect_location_dom.
    by apply geoKeys_not_locationKeys.
  - cbn [metadata mergeMetadata Meta.location]. unfold spread.
    intros Hnull. apply lookup_union_Some_raw in Hnull as [Hnull|[_ Hnull]]; [congruence|].
    assert (k ∈ dom (Meta.location technicalData)) as Hin by (apply elem_of_dom; eauto).
    unfold technicalData in Hin. rewrite collect_location_dom in Hin.
    by apply (geoKeys_not_locationKeys k).
  - cbn [metadata mergeMetadata Meta.location]. unfold spread.
    rewrite dom_union_L. unfold technicalData. rewrite collect_location_dom.
    apply (comm_L (∪)).
  - unfold spread. by apply map_union_comm.
Qed.

(** The metadata [handleSubmit] persists is the merge of the synchronous
    record with a result of [getGeolocation], which has only enrichment
    keys; building it never throws. *)
Lemma buildMetadata_merges env w log :
  exists geo log',
    getGeolocation w log = (Normal geo, log') /\
    dom geo ⊆ geoKeys /\
    buildMetadata env w log =
      (Normal (mergeMetadata (collectTechnicalMetadata env) geo), log').
Proof.
  destruct (getGeolocation w log) as [[geo|e] log'] eqn:H.
  - exists geo, log'. split; [done|]. split; [by eapply getGeolocation_dom|].
    unfold buildMetadata, bind. by rewrite H.
  - exfalso. revert H. unfold getGeolocation, tryCatch, bind, await, eval.
    destruct (fetch w _) as [r|?]; [|done].
    destruct (json r) as [data|?]; [|done]. by destruct data.
Qed.

Lemma mergeMetadata_frame_witness :
  let technicalData := collectTechnicalMetadata exampleEnv in
  let metadata :=
    mergeMetadata technicalData {[ "country" := VString (js "Ghana") ]} in
  Meta.location metadata !! "timezone" = Some (VString (js "Africa/Accra")) /\
  Meta.location metadata !! "country" = Some (VString (js "Ghana")) /\
  Meta.location metadata !! "city" = None.
Proof.
  assert (Hdom : dom ({[ "country" := VString (js "Ghana") ]} : gmap string JsValue)
                 ⊆ geoKeys).
  { rewrite dom_singleton_L. unfold geoKeys. set_solver. }
  pose proof (mergeMetadata_frame exampleEnv {[ "country" := VString (js "Ghana") ]} Hdom)
    as (_ & _ & _ & _ & _ & Hsync & Hgeo & Habsent & _).
  split; [|split].
  - apply Hsync. reflexivity.
  - apply Hgeo. reflexivity.
  - apply (Habsent "city"); [unfold geoKeys; set_solver|reflexivity].
Defined.

(** ** Further properties of the classifiers, the record and the submit handler *)

Lemma exec_Some m s r :
  exec m s = Some r -> exists pre t, s = pre ++ t /\ matchAt m t = Some r.
Proof.
  induction s as [|c s IH]; cbn [exec].
  - destruct (matchAt m []) eqn:E; [|done]. intros [= <-]. by exists [], [].
  - destruct (matchAt m (c :: s)) eqn:E.
    + intros [= <-]. by exists [], (c :: s).
    + intros (pre & t & -> & H)%IH. by exists (c :: pre), t.
Qed.

Lemma exec_None m s pre t :
  exec m s = None -> s = pre ++ t -> matchAt m t = None.
Proof.
  intros H Hs. assert (Ht : test m s = false) by (unfold test; by rewrite H).
  rewrite test_false_iff in Ht. specialize (Ht pre t Hs).
  by destruct (matchAt m t).
Qed.

Lemma starLoop_Some ok s caps k r :
  starLoop ok s caps k = Some r ->
  exists n, n <= length s /\ forallb ok (take n s) = true /\
            k (mkState (drop n s) caps) = Some r.
Proof.
  induction s as [|c s IH]; cbn [starLoop].
  - intros H. exists 0. by repeat split.
  - destruct (ok c) eqn:Hc.
    + destruct (starLoop ok s caps k) eqn:E.
      * intros [= <-]. destruct (IH eq_refl) as (n & Hn & Hall & Hk).
        exists (S n). cbn. rewrite Hc, Hall. repeat split; [lia|done].
      * intros H. exists 0. repeat split; [cbn; lia|done].
    + intros H. exists 0. repeat split; [cbn; lia|done].
Qed.

Lemma starLoop_digits ds r caps k res :
  forallb isDigit ds = true ->
  nextIsDigit r = false ->
  k (mkState r caps) = Some res ->
  starLoop isDigit (ds ++ r) caps k = Some res.
Proof.
  intros Hds Hr Hk. induction ds as [|d ds IH]; cbn [app].
  - by rewrite starLoop_stop.
  - cbn [starLoop]. cbn [forallb] in Hds. apply andb_true_iff in Hds as [-> Hds].
    by rewrite (IH Hds).
Qed.

Lemma startsWith_split p t : startsWith p t = true -> exists r, t = p ++ r.
Proof.
  revert t; induction p as [|a p IH]; intros t; cbn.
  - by exists t.
  - destruct t as [|b t]; [done|]. intros [Hab H]%andb_true_iff.
    apply N.eqb_eq in Hab as ->. destruct (IH _ H) as [r ->]. by exists r.
Qed.

Lemma startsWith_app_same p r : startsWith p (p ++ r) = true.
Proof. induction p as [|a p IH]; cbn; [done|]. by rewrite N.eqb_refl. Qed.

(** What a successful match of a version pattern looks like. *)
Lemma matchAt_versionRe prefix t r :
  matchAt (versionRe prefix) t = Some r ->
  exists ds post, t = js prefix ++ ds ++ post /\ ds <> [] /\ forallb isDigit ds = true /\
    r = mkState post [(1, ds)].
Proof.
  unfold matchAt, versionRe, seq. rewrite str_eq. cbn [rest captures].
  destruct (startsWithCI false (js prefix) t) eqn:Hp; [|done].
  rewrite startsWithCI_false in Hp. apply startsWith_split in Hp as [t' ->].
  rewrite drop_app_length.
  unfold group, plus, seq, charMatcher, star. cbn [rest captures].
  destruct t' as [|c t'']; [done|].
  destruct (isDigit c) eqn:Hc; [|done].
  intros (n & Hn & Hall & Hk)%starLoop_Some. cbn [rest captures] in Hk.
  injection Hk as <-.
  exists (c :: take n t''), (drop n t'').
  split; [by rewrite <- app_comm_cons, take_drop|]. split; [done|].
  split; [cbn; by rewrite Hc|].
  do 2 f_equal. f_equal.
  rewrite <- (take_drop n t'') at 1 3.
  exact (take_captured (c :: take n t'') (drop n t'')).
Qed.

Lemma matchGroup_versionRe prefix ua ds :
  matchGroup (versionRe prefix) 1 ua = Some ds ->
  ds <> [] /\ forallb isDigit ds = true /\
  exists pre post, ua = pre ++ js prefix ++ ds ++ post.
Proof.
  unfold matchGroup. destruct (exec (versionRe prefix) ua) as [r|] eqn:E; [|done].
  apply exec_Some in E as (pre & t & -> & Hm).
  apply matchAt_versionRe in Hm as (ds' & post & -> & Hne & Hd & ->).
  cbn. intros [= <-]. repeat split; try done. by exists pre, post.
Qed.

Lemma matchGroup_versionRe_None prefix ua :
  includes ua (js prefix) = false -> matchGroup (versionRe prefix) 1 ua = None.
Proof.
  intros H. unfold matchGroup.
  destruct (exec (versionRe prefix) ua) as [r|] eqn:E; [|done].
  apply exec_Some in E as (pre & t & -> & Hm).
  apply matchAt_versionRe in Hm as (ds' & post & -> & _).
  rewrite includes_false_iff in H.
  specialize (H pre (js prefix ++ ds' ++ post) eq_refl).
  by rewrite startsWith_app_same in H.
Qed.

Lemma isDigit_not_underscore d : isDigit d = true -> N.eqb d 95 = false.
Proof.
  unfold isDigit. intros [_ H%N.leb_le]%andb_true_iff. apply N.eqb_neq. lia.
Qed.

Lemma replaceFirst_digits ds :
  forallb isDigit ds = true -> replaceFirst 95 46 ds = ds.
Proof.
  induction ds as [|d ds IH]; cbn [forallb replaceFirst]; [done|].
  intros [Hd Hds]%andb_true_iff. by rewrite (isDigit_not_underscore _ Hd), (IH Hds).
Qed.

Lemma replaceFirst_version d1 c d2 :
  forallb isDigit d1 = true -> dotOrUnderscore c = true -> forallb isDigit d2 = true ->
  replaceFirst 95 46 (d1 ++ c :: d2) = d1 ++ 46%N :: d2.
Proof.
  intros H1 Hc H2. induction d1 as [|d d1 IH]; cbn [app replaceFirst].
  - unfold dotOrUnderscore in Hc. apply orb_true_iff in Hc as [Hc|Hc].
    + apply N.eqb_eq in Hc as ->. cbn. by rewrite replaceFirst_digits.
    + by rewrite Hc.
  - cbn [forallb] in H1. apply andb_true_iff in H1 as [Hd H1].
    by rewrite (isDigit_not_underscore _ Hd), (IH H1).
Qed.

Lemma matchAt_macVersionRe t r :
  matchAt macVersionRe t = Some r ->
  exists d1 c d2 post,
    t = js "Mac OS X " ++ (d1 ++ c :: d2) ++ post /\
    d1 <> [] /\ forallb isDigit d1 = true /\ dotOrUnderscore c = true /\
    d2 <> [] /\ forallb isDigit d2 = true /\
    r = mkState post [(1, d1 ++ c :: d2)].
Proof.
  unfold matchAt, macVersionRe, seq. rewrite str_eq. cbn [rest captures].
  destruct (startsWithCI false (js "Mac OS X ") t) eqn:Hp; [|done].
  rewrite startsWithCI_false in Hp. apply startsWith_split in Hp as [t' ->].
  rewrite drop_app_length.
  unfold group, plus, seq, charMatcher, star. cbn [rest captures].
  destruct t' as [|c1 l1]; [done|].
  destruct (isDigit c1) eqn:Hc1; [|done].
  intros (n1 & Hn1 & Hall1 & Hk)%starLoop_Some. cbn [rest captures] in Hk.
  destruct (drop n1 l1) as [|c l2] eqn:Hl2; [done|].
  destruct (dotOrUnderscore c) eqn:Hc; [|done].
  destruct l2 as [|c2 l3]; [done|].
  destruct (isDigit c2) eqn:Hc2; [|done].
  apply starLoop_Some in Hk as (n2 & Hn2 & Hall2 & Hk). cbn [rest captures] in Hk.
  injection Hk as <-.
  assert (Hl1 : l1 = take n1 l1 ++ c :: c2 :: take n2 l3 ++ drop n2 l3).
  { rewrite <- (take_drop n1 l1) at 1. rewrite Hl2. by rewrite take_drop. }
  exists (c1 :: take n1 l1), c, (c2 :: take n2 l3), (drop n2 l3).
  split.
  { f_equal. rewrite Hl1 at 1. by rewrite <- !app_assoc, <- !app_comm_cons. }
  split; [done|]. split; [cbn; by rewrite Hc1|]. split; [done|].
  split; [done|]. split; [cbn; by rewrite Hc2|].
  do 2 f_equal. f_equal.
  rewrite Hl1 at 1 2.
  change (S (length ?l)) with (length (c1 :: l)).
  replace (c1 :: take n1 l1 ++ c :: c2 :: take n2 l3 ++ drop n2 l3)
    with (((c1 :: take n1 l1) ++ c :: c2 :: take n2 l3) ++ drop n2 l3)
    by (by rewrite <- !app_assoc).
  apply take_captured.
Qed.

Lemma macOSLabel_shape ua :
  macOSLabel ua = js "macOS " \/
  exists d1 d2, d1 <> [] /\ forallb isDigit d1 = true /\
                d2 <> [] /\ forallb isDigit d2 = true /\
                macOSLabel ua = js "macOS " ++ d1 ++ js "." ++ d2.
Proof.
  unfold macOSLabel, matchGroup.
  destruct (exec macVersionRe ua) as [r|] eqn:E; [|by left].
  apply exec_Some in E as (pre & t & -> & Hm).
  apply matchAt_macVersionRe in Hm as (d1 & c & d2 & post & -> & H1 & Hd1 & Hc & H2 & Hd2 & ->).
  right. exists d1, d2. repeat split; try done.
  cbn [captures lookupCapture Nat.eqb option_map].
  rewrite replaceFirst_version by done.
  destruct d1 as [|x d1]; [done|]. reflexivity.
Qed.

(** X1: the browser name is one of Firefox, Edge, Chrome, Safari,
    Unknown.  The version is "unknown" or a non-empty string of decimal
    digits, and in the second case the user agent contains the version
    prefix of that browser ("Firefox/", "Edg/", "Chrome/", "Version/")
    immediately followed by the version. *)
Theorem getBrowser_version_shape (ua : JsString) :
  In (name (getBrowser ua))
     [js "Firefox"; js "Edge"; js "Chrome"; js "Safari"; js "Unknown"] /\
  (version (getBrowser ua) = js "unknown" \/
   (isVersion (version (getBrowser ua)) = true /\
    exists prefix pre post,
      In (name (getBrowser ua), prefix) browserVersionPrefixes /\
      ua = pre ++ prefix ++ version (getBrowser ua) ++ post)).
Proof.
  assert (H : forall p,
    orElse (matchGroup (versionRe p) 1 ua) (js "unknown") = js "unknown" \/
    (isVersion (orElse (matchGroup (versionRe p) 1 ua) (js "unknown")) = true /\
     exists pre post,
       ua = pre ++ js p ++ orElse (matchGroup (versionRe p) 1 ua) (js "unknown") ++ post)).
  { intros p. destruct (matchGroup (versionRe p) 1 ua) as [ds|] eqn:E; [|by left].
    apply matchGroup_versionRe in E as (Hne & Hd & pre & post & Hua).
    destruct ds as [|d ds]; [done|]. right. split; [exact Hd|]. by exists pre, post. }
  unfold getBrowser.
  repeat (match goal with |- context [includes ua ?p] => destruct (includes ua p) end);
    cbn [name version]; (split; [cbn; tauto|]); try (by left).
  all: match goal with |- context [versionRe ?p] => destruct (H p) as [Hu|[Hv (pre & post & Hua)]] end;
    [by left|right; split; [done|]; eexists _, pre, post; split; [|exact Hua]; cbn; tauto].
Qed.

Lemma startsWith_shorter q p r :
  length q <= length p -> startsWith q (p ++ r) = startsWith q p.
Proof.
  revert p; induction q as [|a q IH]; intros p Hl; [done|].
  destruct p as [|b p]; [cbn in Hl; lia|]. cbn. rewrite IH; [done|]. cbn in Hl. lia.
Qed.

Lemma matchGroup_versionRe_first prefix pre ds post :
  borderFree (js prefix) = true ->
  includes pre (js prefix) = false ->
  ds <> [] -> forallb isDigit ds = true -> nextIsDigit post = false ->
  matchGroup (versionRe prefix) 1 (pre ++ js prefix ++ ds ++ post) = Some ds.
Proof.
  intros Hb Hpre Hne Hd Hpost. unfold matchGroup. rewrite exec_skip.
  - rewrite exec_unfold.
    assert (matchAt (versionRe prefix) (js prefix ++ ds ++ post)
            = Some (mkState post [(1, ds)])) as ->; [|done].
    unfold matchAt, versionRe, seq. rewrite str_eq. cbn [rest captures].
    rewrite startsWithCI_false, startsWith_app_same, drop_app_length.
    destruct ds as [|d ds]; [done|]. cbn [forallb] in Hd.
    apply andb_true_iff in Hd as [Hd1 Hd].
    unfold group, plus, seq, charMatcher, star. cbn [rest captures app]. rewrite Hd1.
    erewrite starLoop_digits; [reflexivity|done|done|]. cbn [rest captures].
    do 3 f_equal. f_equal. exact (take_captured (d :: ds) post).
  - intros pre' t -> Ht. unfold matchAt, versionRe, seq. rewrite str_eq. cbn [rest].
    destruct (startsWithCI false (js prefix) (t ++ js prefix ++ ds ++ post)) eqn:E; [|done].
    exfalso. apply startsWithCI_app_inv in E as [E|[Hlen E]].
    + rewrite startsWithCI_false in E. rewrite includes_false_iff in Hpre.
      by rewrite (Hpre pre' t eq_refl) in E.
    + rewrite startsWithCI_false in E.
      rewrite startsWith_shorter in E by (rewrite length_drop; lia).
      unfold borderFree in Hb. rewrite forallb_forall in Hb.
      specialize (Hb (length t)). rewrite E in Hb. apply (Bool.diff_false_true), Hb.
      apply in_seq. destruct t; [done|]. cbn in *. lia.
Qed.

Lemma includes_intro pre p r : includes (pre ++ p ++ r) p = true.
Proof.
  apply includes_true_iff. exists pre, (p ++ r). split; [done|]. apply startsWith_app_same.
Qed.

(** X2: the version is the major version only: when the first occurrence
    of a browser's version prefix is followed by the digits [ds] and then
    by something that is not a digit, and no earlier rule applies, the
    version is exactly [ds]. *)
Theorem getBrowser_version_extracted (pre ds post : JsString) :
  ds <> [] -> forallb isDigit ds = true -> nextIsDigit post = false ->
  (includes pre (js "Firefox/") = false ->
   getBrowser (pre ++ js "Firefox/" ++ ds ++ post) = mkBrowser (js "Firefox") ds) /\
  (includes (pre ++ js "Edg/" ++ ds ++ post) (js "Firefox") = false ->
   includes pre (js "Edg/") = false ->
   getBrowser (pre ++ js "Edg/" ++ ds ++ post) = mkBrowser (js "Edge") ds) /\
  (includes (pre ++ js "Chrome/" ++ ds ++ post) (js "Firefox") = false ->
   includes (pre ++ js "Chrome/" ++ ds ++ post) (js "Edg") = false ->
   includes pre (js "Chrome/") = false ->
   getBrowser (pre ++ js "Chrome/" ++ ds ++ post) = mkBrowser (js "Chrome") ds) /\
  (includes (pre ++ js "Version/" ++ ds ++ post) (js "Firefox") = false ->
   includes (pre ++ js "Version/" ++ ds ++ post) (js "Edg") = false ->
   includes (pre ++ js "Version/" ++ ds ++ post) (js "Chrome") = false ->
   includes (pre ++ js "Version/" ++ ds ++ post) (js "Safari") = true ->
   includes pre (js "Version/") = false ->
   getBrowser (pre ++ js "Version/" ++ ds ++ post) = mkBrowser (js "Safari") ds).
Proof.
  intros Hne Hd Hpost.
  assert (Hor : orElse (Some ds) (js "unknown") = ds) by (by destruct ds).
  repeat split.
  - intros Hpre. unfold getBrowser.
    rewrite (includes_app_l _ (js "Firefox") (js "/")) by apply includes_intro.
    rewrite (matchGroup_versionRe_first "Firefox/") by done. f_equal. exact Hor.
  - intros HF Hpre. unfold getBrowser. rewrite HF.
    rewrite (includes_app_l _ (js "Edg") (js "/")) by apply includes_intro.
    rewrite (matchGroup_versionRe_first "Edg/") by done. f_equal. exact Hor.
  - intros HF HE Hpre. unfold getBrowser. rewrite HF, HE.
    rewrite (includes_app_l _ (js "Chrome") (js "/")) by apply includes_intro.
    rewrite (matchGroup_versionRe_first "Chrome/") by done. f_equal. exact Hor.
  - intros HF HE HC HS Hpre. unfold getBrowser. rewrite HF, HE, HC, HS.
    rewrite (matchGroup_versionRe_first "Version/") by done. f_equal. exact Hor.
Qed.

Lemma getBrowser_version_extracted_witness :
  getBrowser chromeUA = mkBrowser (js "Chrome") (js "120") /\
  getBrowser firefoxUA = mkBrowser (js "Firefox") (js "115").
Proof.
  split.
  - exact (proj1 (proj2 (proj2 (getBrowser_version_extracted
      (js "Mozilla/5.0 (Windows NT 10.0; Win64; x64) AppleWebKit/537.36 (KHTML, like Gecko) ")
      (js "120") (js ".0.0.0 Safari/537.36")
      ltac:(discriminate) eq_refl eq_refl))) eq_refl eq_refl eq_refl).
  - exact (proj1 (getBrowser_version_extracted
      (js "Mozilla/5.0 (X11; Linux x86_64; rv:109.0) Gecko/20100101 ")
      (js "115") (js ".0") ltac:(discriminate) eq_refl eq_refl) eq_refl).
Defined.

(** X3: a browser whose marker is present but whose version prefix is
    not gets the version "unknown" (the EdgeHTML user agent has "Edge/",
    not "Edg/"). *)
Theorem getBrowser_version_needs_prefix (ua : JsString) :
  (includes ua (js "Firefox") = true -> includes ua (js "Firefox/") = false ->
   getBrowser ua = mkBrowser (js "Firefox") (js "unknown")) /\
  (includes ua (js "Firefox") = false -> includes ua (js "Edg") = true ->
   includes ua (js "Edg/") = false ->
   getBrowser ua = mkBrowser (js "Edge") (js "unknown")) /\
  (includes ua (js "Firefox") = false -> includes ua (js "Edg") = false ->
   includes ua (js "Chrome") = true -> includes ua (js "Chrome/") = false ->
   getBrowser ua = mkBrowser (js "Chrome") (js "unknown")) /\
  (includes ua (js "Firefox") = false -> includes ua (js "Edg") = false ->
   includes ua (js "Chrome") = false -> includes ua (js "Safari") = true ->
   includes ua (js "Version/") = false ->
   getBrowser ua = mkBrowser (js "Safari") (js "unknown")).
Proof.
  unfold getBrowser. repeat split.
  - intros -> H. by rewrite (matchGroup_versionRe_None _ _ H).
  - intros -> -> H. by rewrite (matchGroup_versionRe_None _ _ H).
  - intros -> -> -> H. by rewrite (matchGroup_versionRe_None _ _ H).
  - intros -> -> -> -> H. by rewrite (matchGroup_versionRe_None _ _ H).
Qed.

Lemma getBrowser_version_needs_prefix_witness :
  getBrowser legacyEdgeUA = mkBrowser (js "Edge") (js "unknown").
Proof.
  exact (proj1 (proj2 (getBrowser_version_needs_prefix legacyEdgeUA)) eq_refl eq_refl eq_refl).
Defined.

(** X4: the operating-system label is one of seven fixed labels, or
    "macOS " followed by digits, a period and digits; it never contains an
    underscore. *)
Theorem getOS_label_shape (ua : JsString) :
  (In (getOS ua)
      [js "Windows 10/11"; js "Windows"; js "Linux"; js "Android"; js "iOS";
       js "Unknown"; js "macOS "] \/
   exists d1 d2, d1 <> [] /\ forallb isDigit d1 = true /\
                 d2 <> [] /\ forallb isDigit d2 = true /\
                 getOS ua = js "macOS " ++ d1 ++ js "." ++ d2) /\
  forallb (fun c => negb (N.eqb c 95)) (getOS ua) = true.
Proof.
  assert (Hshape :
    In (getOS ua)
      [js "Windows 10/11"; js "Windows"; js "Linux"; js "Android"; js "iOS";
       js "Unknown"; js "macOS "] \/
    exists d1 d2, d1 <> [] /\ forallb isDigit d1 = true /\
                  d2 <> [] /\ forallb isDigit d2 = true /\
                  getOS ua = js "macOS " ++ d1 ++ js "." ++ d2).
  { rewrite getOS_firstMatch. unfold firstMatch, osRules, existsb.
    repeat (match goal with |- context [includes ua ?p] => destruct (includes ua p) end);
      cbn [orb]; try (left; cbn; tauto).
    all: destruct (macOSLabel_shape ua) as [->|(d1 & d2 & ? & ? & ? & ? & ->)];
      [left; cbn; tauto|right; by exists d1, d2]. }
  split; [exact Hshape|].
  destruct Hshape as [Hin|(d1 & d2 & _ & Hd1 & _ & Hd2 & ->)].
  - cbn [In] in Hin. by destruct Hin as [<-|[<-|[<-|[<-|[<-|[<-|[<-|[]]]]]]]].
  - rewrite !forallb_app. rewrite !andb_true_iff. repeat split; try done.
    + apply forallb_forall. intros c Hc. rewrite forallb_forall in Hd1.
      by rewrite (isDigit_not_underscore _ (Hd1 c Hc)).
    + apply forallb_forall. intros c Hc. rewrite forallb_forall in Hd2.
      by rewrite (isDigit_not_underscore _ (Hd2 c Hc)).
Qed.

(** X5: a user agent with "Mac OS X" that is never followed by a space
    (as in "like Mac OS X)" on iPhones) and without "Windows" gets the
    label "macOS " with an empty version. *)
Theorem getOS_mac_without_version (ua : JsString) :
  includes ua (js "Windows") = false ->
  includes ua (js "Mac OS X") = true ->
  includes ua (js "Mac OS X ") = false ->
  getOS ua = js "macOS ".
Proof.
  intros HW HM Hno. unfold getOS. rewrite (includes_windows_nt _ HW), HW, HM.
  unfold matchGroup.
  destruct (exec macVersionRe ua) as [r|] eqn:E; [|done].
  apply exec_Some in E as (pre & t & -> & Hm).
  apply matchAt_macVersionRe in Hm as (d1 & c & d2 & post & -> & _).
  rewrite includes_false_iff in Hno.
  specialize (Hno pre _ eq_refl). by rewrite startsWith_app_same in Hno.
Qed.

Lemma getOS_mac_without_version_witness :
  getOS iphoneUA = js "macOS ".
Proof. exact (getOS_mac_without_version iphoneUA eq_refl eq_refl eq_refl). Defined.

Lemma startsWithCI_take i p t :
  startsWithCI i p t = true -> startsWithCI i p (take (length p) t) = true.
Proof.
  revert t; induction p as [|a p IH]; intros [|b t]; cbn; try done.
  intros [-> H]%andb_true_iff. by rewrite IH.
Qed.

Lemma hasTabletMarker_true_iff ua :
  hasTabletMarker ua = true <->
  exists pre t, ua = pre ++ t /\
    (startsWithCI true (js "tablet") t || startsWithCI true (js "ipad") t
     || startsWithCI true (js "playbook") t || startsWithCI true (js "silk") t) = true.
Proof.
  unfold hasTabletMarker, tabletMarkers. cbn [existsb]. rewrite orb_false_r.
  rewrite !orb_true_iff, !test_true_iff. setoid_rewrite matchAt_str. split.
  - intros [(pre & t & -> & H)|[(pre & t & -> & H)|[(pre & t & -> & H)|(pre & t & -> & H)]]];
      exists pre, t; (split; [done|]); rewrite H; by rewrite ?orb_true_r.
  - intros (pre & t & -> & H). rewrite !orb_true_iff in H.
    destruct H as [[[H|H]|H]|H]; [left|right;left|right;right;left|right;right;right];
      by exists pre, t.
Qed.

Lemma test_tabletRe_iff ua :
  test tabletRe ua = true <-> hasTabletMarker ua = true \/ androidNotFollowedByMobi ua.
Proof.
  rewrite test_true_iff, hasTabletMarker_true_iff. setoid_rewrite matchAt_tabletRe.
  unfold tabletAt. split.
  - intros (pre & t & -> & H). apply orb_true_iff in H as [H|H].
    + left. by exists pre, t.
    + right. apply andb_true_iff in H as [Ha Hl]. apply negb_true_iff in Hl.
      exists pre, (take 7 t), (drop 7 t). rewrite take_drop. split; [done|]. split; [|done].
      unfold equalsIgnoreCase. apply andb_true_iff. split.
      * by apply (startsWithCI_take true (js "android")).
      * apply Nat.eqb_eq. apply startsWithCI_length in Ha.
        change (length (js "android")) with 7 in *. rewrite length_take. lia.
  - intros [(pre & t & -> & H)|(pre & a & post & -> & Ha & Hl)].
    + exists pre, t. split; [done|]. by rewrite H.
    + exists pre, (a ++ post). split; [done|].
      apply andb_true_iff in Ha as [Ha Hlen]. apply Nat.eqb_eq in Hlen.
      change (length (js "android")) with 7 in Hlen.
      rewrite (startsWithCI_app_r _ _ _ post Ha), <- Hlen, drop_app_length, Hl.
      by rewrite orb_true_r.
Qed.

(** X6: the device is a tablet exactly when the user agent has one of
    tablet, ipad, playbook, silk in any letter case, or an "android" in
    any letter case with no "mobi" in any letter case after it on the same
    line; otherwise it is mobile exactly when it contains one of the
    twelve strings of the mobile pattern in their exact case, and desktop
    when it contains none. *)
Theorem getDeviceType_characterized (ua : JsString) :
  (getDeviceType ua = tablet <->
   hasTabletMarker ua = true \/ androidNotFollowedByMobi ua) /\
  (getDeviceType ua = mobile <->
   ~ (hasTabletMarker ua = true \/ androidNotFollowedByMobi ua) /\
   existsb (includes ua) mobileMarkers = true) /\
  (getDeviceType ua = desktop <->
   ~ (hasTabletMarker ua = true \/ androidNotFollowedByMobi ua) /\
   existsb (includes ua) mobileMarkers = false).
Proof.
  rewrite <- test_tabletRe_iff, <- test_mobileRe. unfold getDeviceType.
  destruct (test tabletRe ua), (test mobileRe ua); repeat split; try done;
    try (by intros []); by intros _ ?.
Qed.

(** X7: Android phones.  A user agent [w ++ M ++ post] in which [w] has
    no line terminator, [M] is "mobi" in some letter case and [post] has
    no "android" in any letter case, which has no explicit tablet marker
    and contains one of the strings of the mobile pattern, is mobile:
    every "android" in it is followed on its line by the "mobi". *)
Theorem getDeviceType_android_phone (w M post : JsString) :
  hasTabletMarker (w ++ M ++ post) = false ->
  forallb dot w = true ->
  equalsIgnoreCase M (js "mobi") = true ->
  test (str true (js "android")) post = false ->
  existsb (includes (w ++ M ++ post)) mobileMarkers = true ->
  getDeviceType (w ++ M ++ post) = mobile.
Proof.
  intros Hmark Hline HM Hpost Hmob. unfold getDeviceType.
  by rewrite (tabletRe_fails _ _ _ Hmark Hline HM Hpost), test_mobileRe, Hmob.
Qed.

Lemma getDeviceType_android_phone_witness :
  getDeviceType androidChromeUA = mobile.
Proof.
  exact (getDeviceType_android_phone
    (js "Mozilla/5.0 (Linux; Android 13; Pixel 7) AppleWebKit/537.36 (KHTML, like Gecko) Chrome/120.0.0.0 ")
    (js "Mobi") (js "le Safari/537.36") eq_refl eq_refl eq_refl eq_refl eq_refl).
Defined.

(** X8: the alternative "Silk-Accelerated" of the mobile pattern never
    decides: a user agent containing it is a tablet, because "silk" is a
    tablet marker, and every user agent classified as mobile contains one
    of the eleven other strings. *)
Theorem getDeviceType_silk_accelerated (ua : JsString) :
  (includes ua (js "Silk-Accelerated") = true -> getDeviceType ua = tablet) /\
  (getDeviceType ua = mobile ->
   existsb (includes ua) mobileMarkersWithoutSilk = true).
Proof.
  assert (H : includes ua (js "Silk-Accelerated") = true -> test tabletRe ua = true).
  { intros (pre & t & -> & Ht)%includes_true_iff.
    apply test_tabletRe_iff. left. apply hasTabletMarker_true_iff.
    exists pre, t. split; [done|].
    apply startsWith_split in Ht as [r ->].
    assert (startsWithCI true (js "silk") (js "Silk-Accelerated" ++ r) = true) as ->
      by (by apply startsWithCI_app_r).
    by rewrite !orb_true_r. }
  split.
  - intros Hs. unfold getDeviceType. by rewrite (H Hs).
  - unfold getDeviceType. destruct (test tabletRe ua) eqn:Ht; [done|].
    rewrite test_mobileRe. destruct (existsb (includes ua) mobileMarkers) eqn:Hm; [|done].
    intros _. destruct (includes ua (js "Silk-Accelerated")) eqn:Hs.
    + by specialize (H eq_refl).
    + revert Hm. unfold mobileMarkers, mobileMarkersWithoutSilk. cbn [existsb].
      rewrite Hs. by cbn [orb].
Qed.

Lemma getDeviceType_silk_accelerated_witness :
  getDeviceType kindleSilkUA = tablet.
Proof. exact (proj1 (getDeviceType_silk_accelerated kindleSilkUA) eq_refl). Defined.

(** X9: the connection type is undefined or a truthy value, never
    another falsy value; it is undefined when none of the three connection
    objects is truthy; and when [navigator.connection] is truthy only its
    [effectiveType] and [type] are consulted, the prefixed objects are
    ignored. *)
Theorem getConnectionType_probe (env : Env) :
  (getConnectionType env = VUndefined \/ truthy (getConnectionType env) = true) /\
  (truthy (navigator_connection env) = false ->
   truthy (navigator_mozConnection env) = false ->
   truthy (navigator_webkitConnection env) = false ->
   getConnectionType env = VUndefined) /\
  (truthy (navigator_connection env) = true ->
   getConnectionType env =
     jsOr (jsOr (getPropOpt (navigator_connection env) "effectiveType")
                (getPropOpt (navigator_connection env) "type")) VUndefined).
Proof.
  unfold getConnectionType, jsOr. repeat split.
  - repeat case_match; auto.
  - intros H1 H2 H3. rewrite H1, H2.
    destruct (navigator_webkitConnection env); try done; cbn in H3; by try rewrite H3.
  - intros H. cbv zeta. rewrite H. cbv iota. by rewrite H.
Qed.

Lemma getGeolocation_normal w log :
  exists geo log', getGeolocation w log = (Normal geo, log').
Proof.
  destruct (getGeolocation w log) as [[geo|e] log'] eqn:H; [by eauto|].
  exfalso. revert H. unfold getGeolocation, tryCatch, bind, await, eval.
  destruct (fetch w _) as [r|?]; [|done].
  destruct (json r) as [data|?]; [|done]. by destruct data.
Qed.

Lemma handleSubmit_run env w b s geo log' :
  App.email (form s) <> [] ->
  getGeolocation w (console s) = (Normal geo, log') ->
  handleSubmit env w b s =
    (Normal tt,
     mkSys (appAfter (form s)
              (submitError (insert b (js "waitlist")
                 [mkRow (App.email (form s))
                    (mergeMetadata (collectTechnicalMetadata env) geo)])))
           log'
           (inserted s ++ [waitlistInsert env geo (App.email (form s))])
           true).
Proof.
  intros Hne Hgeo. destruct s as [[em sub load err] con ins prev]. cbn in Hne, Hgeo.
  destruct em as [|c em]; [done|].
  unfold handleSubmit, bindA, preventDefault. cbn [form App.email].
  unfold setIsLoading, setError, setApp, tryCatchFinally, bindA, liftEff.
  cbn [form console inserted defaultPrevented App.email App.isSubmitted App.isLoading App.error].
  rewrite Hgeo. unfold awaitInsert, evalA, waitlistInsert, submitError.
  cbn [form console inserted defaultPrevented App.email App.isSubmitted App.isLoading App.error].
  destruct (insert b _ _) as [result|e]; [|done].
  destruct (getProp result "error") as [dbError|e]; [|done].
  destruct (truthy dbError); [|done].
  destruct (getProp dbError "code") as [code|e]; [|done].
  by destruct (strictEqualsString code (js "23505")).
Qed.

Lemma handleSubmit_guard env w b s :
  App.email (form s) = [] ->
  handleSubmit env w b s = (Normal tt, mkSys (form s) (console s) (inserted s) true).
Proof.
  intros H. unfold handleSubmit, bindA, preventDefault. cbn [form]. by rewrite H.
Qed.

(** X13: with an empty email, [handleSubmit] only prevents the default
    action of the event: the component state and the console are
    unchanged and nothing is inserted, whatever the network and the
    backend would answer. *)
Theorem handleSubmit_empty_email (env : Env) (w : World) (b : Backend) (s : Sys) :
  App.email (form s) = [] ->
  handleSubmit env w b s =
    (Normal tt, mkSys (form s) (console s) (inserted s) true).
Proof.
  apply handleSubmit_guard.
Qed.

Lemma handleSubmit_empty_email_witness :
  handleSubmit exampleEnv accraWorld acceptingBackend (formWith (js "")) =
    (Normal tt, mkSys (App.mkAppState (js "") false false (js "")) [] [] true).
Proof.
  exact (handleSubmit_empty_email exampleEnv accraWorld acceptingBackend (formWith (js ""))
           eq_refl).
Defined.

(** X14: for every way in which the awaited promises settle (the fetch
    and the body of [getGeolocation], and the insert), a run of
    [handleSubmit] with a non-empty email ends without an exception and
    with the loading flag cleared; it has sent exactly one insert, into
    the table "waitlist", of one row with the email of the form and the
    synchronous capture merged with the result of [getGeolocation]; the
    console is the one [getGeolocation] leaves.  A run in which a promise
    never settles is not described: the handler has no timeout. *)
Theorem handleSubmit_completes (env : Env) (w : World) (b : Backend) (s : Sys) :
  App.email (form s) <> [] ->
  exists (s' : Sys) (geo : gmap string JsValue),
    handleSubmit env w b s = (Normal tt, s') /\
    App.isLoading (form s') = false /\
    defaultPrevented s' = true /\
    getGeolocation w (console s) = (Normal geo, console s') /\
    inserted s' = inserted s ++ [waitlistInsert env geo (App.email (form s))].
Proof.
  intros Hne. destruct (getGeolocation_normal w (console s)) as (geo & log' & Hgeo).
  eexists _, geo. split; [by apply handleSubmit_run|].
  cbn [form console inserted defaultPrevented]. repeat split; try done.
  by destruct (submitError _).
Qed.

Lemma handleSubmit_completes_witness :
  exists (s' : Sys) (geo : gmap string JsValue),
    handleSubmit exampleEnv offlineWorld unreachableBackend (formWith (js "a@b.c"))
      = (Normal tt, s') /\
    App.isLoading (form s') = false /\
    length (inserted s') = 1.
Proof.
  destruct (handleSubmit_completes exampleEnv offlineWorld unreachableBackend
              (formWith (js "a@b.c")) ltac:(discriminate))
    as (s' & geo & H1 & H2 & _ & _ & H3).
  exists s', geo. split; [exact H1|]. split; [exact H2|]. by rewrite H3.
Defined.

(** X15: after a submission with a non-empty email, either the form is
    marked submitted with the email and the error message cleared, and
    then the insert resolved with a falsy [error]; or one of the three
    error messages is shown and the email and the submitted flag are as
    they were. *)
Theorem handleSubmit_success_or_error (env : Env) (w : World) (b : Backend)
    (s s' : Sys) :
  App.email (form s) <> [] ->
  handleSubmit env w b s = (Normal tt, s') ->
  (App.isSubmitted (form s') = true /\
   App.email (form s') = [] /\
   App.error (form s') = [] /\
   exists call result dbError,
     last (inserted s') = Some call /\
     insert b (table call) (rows call) = Normal result /\
     getProp result "error" = Normal dbError /\
     truthy dbError = false) \/
  (In (App.error (form s')) [msgDuplicate; msgDatabase; msgFailed] /\
   App.email (form s') = App.email (form s) /\
   App.isSubmitted (form s') = App.isSubmitted (form s)).
Proof.
  intros Hne Hrun. destruct (getGeolocation_normal w (console s)) as (geo & log' & Hgeo).
  rewrite (handleSubmit_run _ _ _ _ _ _ Hne Hgeo) in Hrun. injection Hrun as <-.
  cbn [form inserted]. rewrite last_snoc. unfold waitlistInsert at 1.
  unfold submitError.
  destruct (insert b _ _) as [result|e] eqn:Hins; [|right; cbn; tauto].
  destruct (getProp result "error") as [dbError|e] eqn:Herr; [|right; cbn; tauto].
  destruct (truthy dbError) eqn:Htr.
  - destruct (getProp dbError "code") as [code|e]; [|right; cbn; tauto].
    destruct (strictEqualsString code (js "23505")); right; cbn; tauto.
  - left. cbn [appAfter App.isSubmitted App.email App.error]. repeat split.
    eexists _, result, dbError. split; [done|]. cbn [table rows]. by rewrite Hins.
Qed.

Lemma handleSubmit_success_or_error_witness :
  let s' := snd (handleSubmit exampleEnv accraWorld acceptingBackend (formWith (js "a@b.c"))) in
  App.isSubmitted (form s') = true /\ App.email (form s') = [] /\ App.error (form s') = [].
Proof.
  destruct (handleSubmit_success_or_error exampleEnv accraWorld acceptingBackend
              (formWith (js "a@b.c"))
              (snd (handleSubmit exampleEnv accraWorld acceptingBackend (formWith (js "a@b.c"))))
              ltac:(discriminate) eq_refl)
    as [(H1 & H2 & H3 & _)|(_ & H & _)].
  - exact (conj H1 (conj H2 H3)).
  - discriminate H.
Defined.

(** X16: the message shown after a failed submission: "Failed to join
    waitlist..." when the insert throws; for a truthy [error] in the
    result, "This email is already on the waitlist!" when its [code] is
    the string "23505" and "Something went wrong..." otherwise. *)
Theorem handleSubmit_error_message (env : Env) (w : World) (b : Backend)
    (s s' : Sys) (call : InsertCall) :
  App.email (form s) <> [] ->
  handleSubmit env w b s = (Normal tt, s') ->
  last (inserted s') = Some call ->
  (forall e, insert b (table call) (rows call) = Throw e ->
     App.error (form s') = msgFailed) /\
  (forall result dbError,
     insert b (table call) (rows call) = Normal result ->
     getProp result "error" = Normal dbError ->
     truthy dbError = true ->
     App.error (form s') =
       if strictEqualsString (getPropOpt dbError "code") (js "23505")
       then msgDuplicate else msgDatabase).
Proof.
  intros Hne Hrun Hlast. destruct (getGeolocation_normal w (console s)) as (geo & log' & Hgeo).
  rewrite (handleSubmit_run _ _ _ _ _ _ Hne Hgeo) in Hrun. injection Hrun as <-.
  cbn [form inserted] in *. rewrite last_snoc in Hlast. injection Hlast as <-.
  cbn [waitlistInsert table rows]. split.
  - intros e ->. reflexivity.
  - intros result dbError -> Herr Htr. unfold submitError. rewrite Herr, Htr.
    unfold getPropOpt. destruct dbError; try done; cbn [getProp];
      by destruct (strictEqualsString _ _).
Qed.

Lemma handleSubmit_error_message_witness :
  App.error (form (snd (handleSubmit exampleEnv accraWorld duplicateBackend
                         (formWith (js "a@b.c"))))) = msgDuplicate.
Proof.
  exact (proj2 (handleSubmit_error_message exampleEnv accraWorld duplicateBackend
           (formWith (js "a@b.c"))
           (snd (handleSubmit exampleEnv accraWorld duplicateBackend (formWith (js "a@b.c"))))
           (waitlistInsert exampleEnv
              {[ "country" := VString (js "Ghana"); "city" := VString (js "Accra");
                 "countryCode" := VString (js "GH") ]} (js "a@b.c"))
           ltac:(discriminate) eq_refl eq_refl)
         _ _ eq_refl eq_refl eq_refl).
Defined.

(** X17: a submission that ends without an error message has marked the
    form submitted, and running the handler again on the resulting state
    changes nothing: no second row is inserted. *)
Theorem handleSubmit_no_resubmit (env : Env) (w : World) (b : Backend) (s s' : Sys) :
  App.email (form s) <> [] ->
  handleSubmit env w b s = (Normal tt, s') ->
  App.error (form s') = [] ->
  App.isSubmitted (form s') = true /\
  forall (env2 : Env) (w2 : World) (b2 : Backend),
    handleSubmit env2 w2 b2 s' = (Normal tt, s').
Proof.
  intros Hne Hrun Herr. destruct (getGeolocation_normal w (console s)) as (geo & log' & Hgeo).
  rewrite (handleSubmit_run _ _ _ _ _ _ Hne Hgeo) in Hrun. injection Hrun as <-.
  cbn [form] in *. destruct (submitError _) as [msg|] eqn:Hs.
  - exfalso. cbn [appAfter App.error] in Herr. subst msg. revert Hs. unfold submitError.
    repeat case_match; discriminate.
  - split; [done|]. intros env2 w2 b2. by rewrite handleSubmit_guard.
Qed.

Lemma N_of_ascii_inj a b : N_of_ascii a = N_of_ascii b -> a = b.
Proof. intros H. by rewrite <- (ascii_N_embedding a), <- (ascii_N_embedding b), H. Qed.

Lemma js_inj s t : js s = js t -> s = t.
Proof.
  unfold js. revert t; induction s as [|a s IH]; intros [|b t]; cbn; try done.
  intros [= Hab H]. f_equal; [by apply N_of_ascii_inj|by apply IH].
Qed.

Lemma to_int_nonnil z : Z.to_int z <> Decimal.Pos Decimal.Nil /\ Z.to_int z <> Decimal.Neg Decimal.Nil.
Proof.
  destruct z; cbn; split; try discriminate; intros [= H]; by apply DecimalPos.Unsigned.to_uint_nonnil in H.
Qed.

Lemma numberToString_inj a b : numberToString a = numberToString b -> a = b.
Proof.
  unfold numberToString. intros H%js_inj.
  assert (Hp : forall z, NilZero.int_of_string (NilZero.string_of_int (Z.to_int z))
                         = Some (Z.to_int z)).
  { intros z. apply NilZero.isi; apply to_int_nonnil. }
  pose proof (Hp a) as Ha. rewrite H, Hp in Ha. injection Ha as Ha.
  by rewrite <- (DecimalZ.of_to a), <- (DecimalZ.of_to b), Ha.
Qed.

Lemma string_of_uint_digits d :
  forallb isNumberUnit (js (NilEmpty.string_of_uint d)) = true.
Proof. induction d; cbn; try done. Qed.

Lemma numberToString_units n : forallb isNumberUnit (numberToString n) = true.
Proof.
  unfold numberToString. destruct (Z.to_int n) as [d|d]; cbn.
  - unfold NilZero.string_of_uint. destruct d; try done; apply (string_of_uint_digits (_ d)).
  - unfold NilZero.string_of_uint. destruct d; try done; apply (string_of_uint_digits (_ d)).
Qed.

Lemma app_pivot_inj (x : N) l1 r1 l2 r2 :
  forallb (fun c => negb (N.eqb c x)) l1 = true ->
  forallb (fun c => negb (N.eqb c x)) l2 = true ->
  l1 ++ x :: r1 = l2 ++ x :: r2 -> l1 = l2 /\ r1 = r2.
Proof.
  revert l2; induction l1 as [|a l1 IH]; intros [|b l2]; cbn.
  - by intros _ _ [= ->].
  - intros _ [Hb _]%andb_true_iff [= <- _]. by rewrite N.eqb_refl in Hb.
  - intros [Ha _]%andb_true_iff _ [= -> _]. by rewrite N.eqb_refl in Ha.
  - intros [_ H1]%andb_true_iff [_ H2]%andb_true_iff [= -> H].
    destruct (IH _ H1 H2 H) as [-> ->]. done.
Qed.

Lemma numberToString_no_x n :
  forallb (fun c => negb (N.eqb c 120)) (numberToString n) = true.
Proof.
  pose proof (numberToString_units n) as H. rewrite forallb_forall in *.
  intros c Hc. specialize (H c Hc). unfold isNumberUnit, isDigit in H.
  apply negb_true_iff, N.eqb_neq. intros ->. done.
Qed.

(** X10: the rendered screen resolution and viewport size determine the
    dimensions they were built from: two environments with the same
    string have the same width and height. *)
Theorem resolution_determines_size (env1 env2 : Env) :
  (Meta.screenResolution (Meta.device (collectTechnicalMetadata env1)) =
   Meta.screenResolution (Meta.device (collectTechnicalMetadata env2)) ->
   screen_width env1 = screen_width env2 /\ screen_height env1 = screen_height env2) /\
  (Meta.viewportSize (Meta.device (collectTechnicalMetadata env1)) =
   Meta.viewportSize (Meta.device (collectTechnicalMetadata env2)) ->
   window_innerWidth env1 = window_innerWidth env2 /\
   window_innerHeight env1 = window_innerHeight env2).
Proof.
  cbn [collectTechnicalMetadata Meta.device Meta.screenResolution Meta.viewportSize].
  change (js "x" ++ ?r) with (120%N :: r).
  split; (intros [H1 H2]%app_pivot_inj; try apply numberToString_no_x;
          split; by apply numberToString_inj).
Qed.

Lemma resolution_determines_size_witness :
  screen_width exampleEnv = 1920%Z /\ screen_height exampleEnv = 1080%Z.
Proof.
  exact (proj1 (resolution_determines_size exampleEnv
    (mkEnv firefoxUA (js "fr-FR") false VNull VUndefined VUndefined VUndefined
           1920 1080 800 600 (js "https://example.org/") (js "")
           (js "Europe/Paris") 22 6 (js "2024-06-01T20:00:00.000Z"))) eq_refl).
Defined.

Lemma orElse_nonempty x d : d <> [] -> orElse x d <> [].
Proof. intros Hd. by destruct x as [[|c s]|]. Qed.

Lemma getOS_nonempty ua : getOS ua <> [].
Proof.
  unfold getOS.
  repeat (match goal with |- context [includes ua ?p] => destruct (includes ua p) end);
    cbn [orb]; discriminate.
Qed.

Lemma getGeolocation_cases w log :
  (exists e, getGeolocation w log = (Normal ∅, log ++ [failureEntry e])) \/
  (exists geo, getGeolocation w log = (Normal geo, log) /\ dom geo = geoKeys).
Proof.
  destruct (fetch w geoUrl) as [r|e] eqn:Hf.
  - destruct (json r) as [data|e] eqn:Hj.
    + destruct data eqn:Hd;
        try (right; eexists; split; [by eapply getGeolocation_parsed|];
             unfold geoKeys; rewrite !dom_insert_L, dom_singleton_L; set_solver);
        left; eexists; eapply getGeolocation_nullish; eauto.
    + left. eexists. by eapply getGeolocation_json_throws.
  - left. eexists. by eapply getGeolocation_fetch_throws.
Qed.

(** X11: every string the synchronous capture derives is non-empty: the
    browser name and version, the operating-system label, the day part
    and the referrer, which is the document's referrer or, when that is
    empty, "Direct"; the raw user agent is kept as it is; the weekday is
    one of the seven names when [getDay] is below 7 and undefined
    otherwise; the do-not-track flag is set exactly for the string "1". *)
Theorem collectTechnicalMetadata_complete (env : Env) :
  let m := collectTechnicalMetadata env in
  Meta.name (Meta.browser m) <> [] /\
  Meta.version (Meta.browser m) <> [] /\
  Meta.userAgent (Meta.browser m) = navigator_userAgent env /\
  Meta.os (Meta.device m) <> [] /\
  In (Meta.timeOfDay (Meta.session m))
     [js "Morning"; js "Afternoon"; js "Evening"; js "Night"] /\
  Meta.referrer (Meta.session m) <> [] /\
  (document_referrer env <> [] ->
   Meta.referrer (Meta.session m) = document_referrer env) /\
  (document_referrer env = [] -> Meta.referrer (Meta.session m) = js "Direct") /\
  (now_getDay env < 7 ->
   exists d, In d days /\ Meta.dayOfWeek (Meta.session m) = VString d) /\
  (7 <= now_getDay env -> Meta.dayOfWeek (Meta.session m) = VUndefined) /\
  (Meta.doNotTrack (Meta.technical m) = true <->
   navigator_doNotTrack env = VString (js "1")).
Proof.
  cbn zeta.
  cbn [collectTechnicalMetadata Meta.browser Meta.device Meta.session Meta.technical
       Meta.name Meta.version Meta.userAgent Meta.os Meta.timeOfDay Meta.referrer
       Meta.dayOfWeek Meta.doNotTrack].
  split.
  { unfold getBrowser.
    repeat (match goal with |- context [includes ?u ?p] => destruct (includes u p) end);
      discriminate. }
  split.
  { unfold getBrowser.
    repeat (match goal with |- context [includes ?u ?p] => destruct (includes u p) end);
      cbn [version]; try (by apply orElse_nonempty); discriminate. }
  split; [done|]. split; [apply getOS_nonempty|].
  split.
  { unfold getTimeOfDay. repeat case_match; cbn; tauto. }
  split; [by apply orElse_nonempty|].
  split; [by destruct (document_referrer env)|].
  split; [by intros ->|].
  split.
  { intros Hd. destruct (days !! now_getDay env) as [d|] eqn:E.
    - exists d. split; [|done]. apply list_elem_of_In. by eapply list_elem_of_lookup_2.
    - apply lookup_ge_None in E. cbn in E. lia. }
  split.
  { intros Hd. by rewrite (proj2 (lookup_ge_None days (now_getDay env))). }
  unfold strictEqualsString. destruct (navigator_doNotTrack env); try done.
  rewrite bool_decide_eq_true. split; [by intros ->|by intros [= ->]].
Qed.

(** X12: building the metadata to persist never throws and writes at most
    one diagnostic after the earlier console entries.  Whatever the
    network does, the result has the browser, device, session and
    technical parts of the synchronous capture and its timezone and
    language; its location keys are among timezone, language, country,
    city, countryCode; and when the lookup failed the result is the
    synchronous record itself. *)
Theorem buildMetadata_location (env : Env) (w : World) (log : list LogEntry) :
  exists (metadata : Meta.TechnicalMetadata) (log' : list LogEntry),
    buildMetadata env w log = (Normal metadata, log') /\
    Meta.browser metadata = Meta.browser (collectTechnicalMetadata env) /\
    Meta.device metadata = Meta.device (collectTechnicalMetadata env) /\
    Meta.session metadata = Meta.session (collectTechnicalMetadata env) /\
    Meta.technical metadata = Meta.technical (collectTechnicalMetadata env) /\
    Meta.location metadata !! "timezone" = Some (VString (resolved_timeZone env)) /\
    Meta.location metadata !! "language" = Some (VString (navigator_language env)) /\
    dom (Meta.location metadata) ⊆ locationKeys ∪ geoKeys /\
    (log' = log \/
     exists e, log' = log ++ [failureEntry e] /\
               metadata = collectTechnicalMetadata env).
Proof.
  unfold buildMetadata, bind.
  destruct (getGeolocation_cases w log) as [[e ->]|[geo [-> Hdom]]].
  - eexists _, _. split; [reflexivity|].
    assert (Hid : mergeMetadata (collectTechnicalMetadata env) ∅
                  = collectTechnicalMetadata env).
    { unfold mergeMetadata, spread. rewrite (left_id_L ∅ (∪)).
      by destruct (collectTechnicalMetadata env). }
    rewrite Hid. repeat split; try done.
    + rewrite collect_location_dom. set_solver.
    + right. by exists e.
  - eexists _, _. split; [reflexivity|].
    cbn [mergeMetadata Meta.browser Meta.device Meta.session Meta.technical Meta.location].
    unfold spread. repeat split; try done.
    + apply lookup_union_Some_raw. right. split; [|done].
      apply not_elem_of_dom. rewrite Hdom. unfold geoKeys. set_solver.
    + apply lookup_union_Some_raw. right. split; [|done].
      apply not_elem_of_dom. rewrite Hdom. unfold geoKeys. set_solver.
    + rewrite dom_union_L, Hdom. cbn [collectTechnicalMetadata Meta.location].
      rewrite dom_insert_L, dom_singleton_L. unfold locationKeys. set_solver.
    + by left.
Qed.

Lemma handleSubmit_no_resubmit_witness :
  let s' := snd (handleSubmit exampleEnv accraWorld acceptingBackend (formWith (js "a@b.c"))) in
  App.isSubmitted (form s') = true /\
  handleSubmit exampleEnv accraWorld acceptingBackend s' = (Normal tt, s').
Proof.
  pose proof (handleSubmit_no_resubmit exampleEnv accraWorld acceptingBackend
                (formWith (js "a@b.c"))
                (snd (handleSubmit exampleEnv accraWorld acceptingBackend
                        (formWith (js "a@b.c"))))
                ltac:(discriminate) eq_refl eq_refl) as [H1 H2].
  exact (conj H1 (H2 exampleEnv accraWorld acceptingBackend)).
Defined.
